(** * pytest-cases: parameter-set decomposition, cartesian product, test ids
      and case collection.

    A shallow embedding of [pytest_cases/common_pytest.py] and
    [pytest_cases/case_parametrizer_new.py].  Python exceptions are values of
    an error monad, module/class attribute tables are finite maps, warnings
    and object allocation are threaded through an explicit interpreter
    state. *)

From Stdlib Require Import ZArith QArith Qcanon String Ascii List Bool Lia DecimalString.
From stdpp Require Import base option list strings gmap sorting.

Local Open Scope string_scope.
Local Open Scope list_scope.

(** ** Python exceptions and the error monad *)

(** The exception classes raised by the embedded functions, with the
    message each [raise] statement builds. *)
Inductive exception :=
| ValueError (msg : string)
| TypeError (msg : string)
| IndexError (msg : string)
| KeyError (key : string)
| AssertionError
| AttributeError (msg : string)
| NotImplementedError (msg : string)
| ImportError (msg : string).

Inductive outcome (A : Type) :=
| Ok (a : A)
| Raise (e : exception).
Arguments Ok {A} a.
Arguments Raise {A} e.

#[global] Instance outcome_ret : MRet outcome := fun A a => Ok a.
#[global] Instance outcome_bind : MBind outcome := fun A B f r =>
  match r with
  | Ok a => f a
  | Raise e => Raise e
  end.
#[global] Instance outcome_fmap : FMap outcome := fun A B f r =>
  match r with
  | Ok a => Ok (f a)
  | Raise e => Raise e
  end.

Definition is_ok {A} (r : outcome A) : bool :=
  match r with Ok _ => true | Raise _ => false end.

Definition is_Some_b {A} (o : option A) : bool :=
  match o with Some _ => true | None => false end.

(** A [for] loop whose body may raise: the accumulator is threaded from
    left to right and the first exception aborts the loop. *)
Section for_each.

Context {A S : Type} (body : S -> A -> outcome S).

Fixpoint for_each (xs : list A) (s : S) : outcome S :=
  match xs with
  | [] => Ok s
  | x :: xs' => s' ← body s x; for_each xs' s'
  end.

End for_each.

(** [enumerate(xs)] *)
Fixpoint enumerate_from {A : Type} (i : nat) (xs : list A) : list (nat * A) :=
  match xs with
  | [] => []
  | x :: xs' => (i, x) :: enumerate_from (S i) xs'
  end.
Definition enumerate {A : Type} (xs : list A) : list (nat * A) := enumerate_from 0 xs.

(** ** Python values *)

(** Marks are opaque annotations: the engine only copies and concatenates
    them. *)
Inductive mark := MarkDecorator (name : string).

(** The values that flow through a parametrization.  [VLazy] and
    [VLazyItem] are the objects of [common_pytest_lazy_values]; [VObject]
    is any other object, neither iterable nor sized, known by its [repr]
    only. *)
#[warnings="-register-all"]
Inductive value :=
| VNone
| VInt (z : Z)
| VStr (s : string)
| VTuple (items : list value)
| VList (items : list value)
| VLazy (valuegetter : string)
| VLazyItem (valuegetter : string) (item : nat)
| VObject (repr : string).

(** An element of [argvalues]: either a [pytest.param(...)] object, i.e. a
    [ParameterSet(values, marks, id)], or any other value. *)
Inductive argvalue :=
| ParameterSet (values : list value) (marks : list mark) (id : option string)
| Plain (v : value).

(** *** Printing, as used by the [%s] and [%r] conversions *)

Definition str_nat (n : nat) : string := NilZero.string_of_uint (Nat.to_uint n).
Definition str_int (z : Z) : string := NilZero.string_of_int (Z.to_int z).

(** [sub in s] *)
Fixpoint contains (sub s : string) : bool :=
  String.prefix sub s ||
  match s with
  | EmptyString => false
  | String _ s' => contains sub s'
  end.

(** [s[0:n]] *)
Fixpoint take_string (n : nat) (s : string) : string :=
  match n with
  | O => EmptyString
  | S n' =>
      match s with
      | String c s' => String c (take_string n' s')
      | EmptyString => EmptyString
      end
  end.

(** [s[n:]] *)
Fixpoint drop_string (n : nat) (s : string) : string :=
  match n, s with
  | O, _ => s
  | S n', String _ s' => drop_string n' s'
  | S _, EmptyString => EmptyString
  end.

(** [s.split(sep)] for a one-character separator *)
Fixpoint split (sep : ascii) (s : string) : list string :=
  match s with
  | EmptyString => [EmptyString]
  | String c s' =>
      if Ascii.eqb c sep then EmptyString :: split sep s'
      else match split sep s' with
           | part :: parts => String c part :: parts
           | [] => [String c EmptyString]
           end
  end.

(** [repr] of a string without quote or escape characters *)
Definition repr_str (s : string) : string := "'" +:+ s +:+ "'".

Fixpoint join (sep : string) (l : list string) : string :=
  match l with
  | [] => ""
  | [s] => s
  | s :: l' => s +:+ sep +:+ join sep l'
  end.

(** [repr(v)]; how lazy values are printed is not in the sources. *)
Fixpoint repr_value (v : value) : string :=
  match v with
  | VNone => "None"
  | VInt z => str_int z
  | VStr s => repr_str s
  | VTuple [x] => "(" +:+ repr_value x +:+ ",)"
  | VTuple l => "(" +:+ join ", " (map repr_value l) +:+ ")"
  | VList l => "[" +:+ join ", " (map repr_value l) +:+ "]"
  | VLazy f => "lazy_value(" +:+ f +:+ ")"
  | VLazyItem f i => "lazy_value(" +:+ f +:+ ")[" +:+ str_nat i +:+ "]"
  | VObject r => r
  end.

Definition str_value (v : value) : string :=
  match v with
  | VStr s => s
  | _ => repr_value v
  end.

Definition repr_names (l : list string) : string :=
  "[" +:+ join ", " (map repr_str l) +:+ "]".

(** *** Builtins on values *)

(** [list(v)]: the items of an iterable, [TypeError] otherwise. *)
Definition py_list (v : value) : outcome (list value) :=
  match v with
  | VTuple l | VList l => Ok l
  | VStr s => Ok (map (fun c => VStr (String c EmptyString)) (list_ascii_of_string s))
  | _ => Raise (TypeError "object is not iterable")
  end.

(** [len(v)] *)
Definition py_len (v : value) : outcome nat :=
  match v with
  | VTuple l | VList l => Ok (length l)
  | VStr s => Ok (String.length s)
  | _ => Raise (TypeError "object has no len()")
  end.

Module common_pytest.

(** *** [common_pytest_lazy_values] *)

(** Modelled from the spec: [common_pytest_lazy_values.is_lazy_value] is not
    in the sources; a lazy value is the deferred call of a case function. *)
Definition is_lazy_value (v : value) : bool :=
  match v with
  | VLazy _ => true
  | _ => false
  end.

(** Modelled from the spec: [LazyValue.as_lazy_items_list] is not in the
    sources; a deferred multi-value "must be split into its [nbNames]
    lazily-indexed components rather than eagerly evaluated". *)
Definition as_lazy_items_list (v : value) (nb_names : nat) : outcome (list value) :=
  match v with
  | VLazy f => Ok (map (VLazyItem f) (seq 0 nb_names))
  | _ => Raise (TypeError "not a lazy value")
  end.

(** *** ParameterSet api (pytest 3.x+ branch) *)

Definition is_marked_parameter_value (v : argvalue) : bool :=
  match v with
  | ParameterSet _ _ _ => true
  | Plain _ => false
  end.

(** [extract_pset_info_single(nbnames, argvalue)]: id, marks, value.
    The marks of a plain argvalue are [None], not an empty list. *)
Definition extract_pset_info_single (nbnames : nat) (argvalue : argvalue)
  : outcome (option string * option (list mark) * value) :=
  match argvalue with
  | ParameterSet values marks _id =>
      if Nat.eqb nbnames 1 then
        match values with
        | v0 :: _ => Ok (_id, Some marks, v0)
        | [] => Raise (IndexError "tuple index out of range")
        end
      else Ok (_id, Some marks, VTuple values)
  | Plain v => Ok (None, None, v)
  end.

Definition inconsistent_number_of_values (found nbnames : nat) (pvalue : value) : string :=
  "Inconsistent number of values in pytest parametrize: " +:+ str_nat found
  +:+ " items found while the number of parameters is " +:+ str_nat nbnames
  +:+ ": " +:+ str_value pvalue +:+ ".".

(** [extract_parameterset_info(argnames, argvalues, check_nb=True)];
    [argnames] is a list of names, never a single string. *)
Definition extract_parameterset_info (argnames : list string) (argvalues : list argvalue)
    (check_nb : bool)
  : outcome (list (option string) * list (option (list mark)) * list value) :=
  let nbnames := length argnames in
  for_each (fun '(pids, pmarks, pvalues) v =>
      '(_pid, _pmark, _pvalue) ← extract_pset_info_single nbnames v;
      let pids := pids ++ [_pid] in
      let pmarks := pmarks ++ [_pmark] in
      let pvalues := pvalues ++ [_pvalue] in
      if check_nb && (1 <? nbnames)%nat then
        n ← py_len _pvalue;
        if negb (Nat.eqb n nbnames) then
          Raise (ValueError (inconsistent_number_of_values n nbnames _pvalue))
        else Ok (pids, pmarks, pvalues)
      else Ok (pids, pmarks, pvalues))
    argvalues ([], [], []).

(** *** The cartesian product *)

Definition sub_param_id_msg : string :=
  "It is not possible to specify a sub-param id when using the new parametrization style. "
  +:+ "Either use the traditional style or customize all ids at once in `idgen`".

(** The body of the loop [for x in argvalues[0]] of [_cart_product_pytest]:
    [argnames_lists] is the whole list of names, [several] is
    [len(argvalues) > 1] and [sub_product] the product of the entries
    [[1:]]. *)
Definition cart_product_step (argnames_lists : list (list string)) (several : bool)
    (sub_product : list (list mark * list value))
    (result : list (list mark * list value)) (x : argvalue)
  : outcome (list (list mark * list value)) :=
  nb_names ← match argnames_lists with
             | names0 :: _ => Ok (length names0)
             | [] => Raise (IndexError "list index out of range")
             end;
  (* (1) extract meta-info *)
  '(x_id, x_marks, x_value) ← extract_pset_info_single nb_names x;
  let x_marks_lst := match x_marks with Some ms => ms | None => [] end in
  match x_id with
  | Some _ => Raise (ValueError sub_param_id_msg)
  | None =>
      (* (2) possibly unpack *)
      x_value_lst ← (if (1 <? nb_names)%nat then
                       if is_lazy_value x_value then as_lazy_items_list x_value nb_names
                       else py_list x_value
                     else Ok [x_value]);
      (* product *)
      if several then
        Ok (result ++ map (fun '(m, p) => (x_marks_lst ++ m, x_value_lst ++ p)) sub_product)
      else
        Ok (result ++ [(x_marks_lst, x_value_lst)])
  end.

(** [_cart_product_pytest(argnames_lists, argvalues)] *)
Fixpoint _cart_product_pytest (argnames_lists : list (list string))
    (argvalues : list (list argvalue)) : outcome (list (list mark * list value)) :=
  match argvalues with
  | [] => Raise (IndexError "list index out of range")
  | argvalues0 :: rest =>
      (* first perform the sub cartesian product with entries [1:] *)
      sub_product ← match rest with
                    | [] => Ok []
                    | _ :: _ => _cart_product_pytest (tail argnames_lists) rest
                    end;
      (* then do the final product with entry [0] *)
      for_each (cart_product_step argnames_lists
                  (match rest with [] => false | _ => true end) sub_product)
        argvalues0 []
  end.

(** [cart_product_pytest] receives the dimensions as two parallel lists;
    a dimension is a pair of its argument names and its raw entries. *)
Definition dimension : Type := list string * list argvalue.

Definition product_of_dimensions (dimensions : list dimension)
  : outcome (list (list mark * list value)) :=
  _cart_product_pytest (map fst dimensions) (map snd dimensions).

(** *** Test ids *)

Section test_ids.

(** [_pytest.python._idval(val, argname, idx, **_idval_kwargs)] belongs to
    the host framework. *)
Variable _idval : value -> string -> nat -> string.

(** [mini_idvalset(argnames, argvalues, idx)] *)
Definition mini_idvalset (argnames : list string) (argvalues : list value) (idx : nat)
  : string :=
  let this_id := map (fun '(val, argname) => _idval val argname idx)
                     (combine argvalues argnames) in
  join "-" this_id.

Definition inconsistent_lengths (param_names : list string) (vv : value) : string :=
  "Inconsistent lenghts for parameter names and values: '" +:+ repr_names param_names
  +:+ "' and '" +:+ str_value vv +:+ "'".

(** [make_test_ids_from_param_values(param_names, param_values)]; [None]
    for an argument that was not passed; [param_names] is never a single
    string. *)
Definition make_test_ids_from_param_values (param_names : option (list string))
    (param_values : option (list value)) : outcome (list string) :=
  match param_names with
  | None => Raise (TypeError "object of type 'NoneType' has no len()")
  | Some param_names =>
      let nb_params := length param_names in
      if Nat.eqb nb_params 0 then Raise (ValueError "empty list provided")
      else
        match param_values with
        | None => Raise (TypeError "'NoneType' object is not iterable")
        | Some param_values =>
            if Nat.eqb nb_params 1 then
              for_each (fun paramids '(_idx, v) =>
                  Ok (paramids ++ [mini_idvalset param_names [v] _idx]))
                (enumerate param_values) []
            else
              for_each (fun paramids '(_idx, vv) =>
                  n ← py_len vv;
                  if negb (Nat.eqb n nb_params) then
                    Raise (ValueError (inconsistent_lengths param_names vv))
                  else
                    items ← py_list vv;
                    Ok (paramids ++ [mini_idvalset param_names items _idx]))
                (enumerate param_values) []
        end
  end.

(** The [ids] argument of a parametrization: an explicit list of ids or a
    callable to apply on the values. *)
Inductive ids_argument :=
| IdsList (ids : list string)
| IdsCallable (idfn : value -> string).

(** [p_ids[i] = _id] *)
Definition setitem {A : Type} (l : list A) (i : nat) (x : A) : outcome (list A) :=
  if (i <? length l)%nat then Ok (<[i := x]> l)
  else Raise (IndexError "list assignment index out of range").

(** [make_test_ids(global_ids, id_marks, argnames, argvalues, precomputed_ids)] *)
Definition make_test_ids (global_ids : option ids_argument)
    (id_marks : list (option string)) (argnames : option (list string))
    (argvalues : option (list value)) (precomputed_ids : option (list string))
  : outcome (list string) :=
  p_ids ← match global_ids with
          | Some (IdsList ids) => Ok ids
          | Some (IdsCallable idfn) =>
              match argvalues with
              | Some vs => Ok (map idfn vs)
              | None => Raise (TypeError "'NoneType' object is not iterable")
              end
          | None =>
              match precomputed_ids with
              | Some pre =>
                  if is_Some_b argnames || is_Some_b argvalues then
                    Raise (ValueError
                      "Only one of `precomputed_ids` or argnames/argvalues should be provided.")
                  else Ok pre
              | None => make_test_ids_from_param_values argnames argvalues
              end
          end;
  (* Finally, local pytest.param takes precedence over everything else *)
  for_each (fun p_ids '(i, _id) =>
      match _id with
      | Some s => setitem p_ids i s
      | None => Ok p_ids
      end)
    (enumerate id_marks) p_ids.

(** [analyze_parameter_set(argnames, argvalues, ids, check_nb)], called with
    the details rather than with a [pmark]. *)
Definition analyze_parameter_set (argnames : list string) (argvalues : list argvalue)
    (ids : option ids_argument) (check_nb : bool)
  : outcome (list string * list (option (list mark)) * list value) :=
  '(custom_pids, p_marks, p_values) ← extract_parameterset_info argnames argvalues check_nb;
  p_ids ← make_test_ids ids custom_pids (Some argnames) (Some p_values) None;
  Ok (p_ids, p_marks, p_values).

End test_ids.

(** *** Utilities *)

Section remove_duplicates.

Context {A : Type} `{Countable A}.

(** The list comprehension of [remove_duplicates], with the set [dset] of
    the items seen so far. *)
Fixpoint remove_duplicates_from (dset : gset A) (lst : list A) : list A :=
  match lst with
  | [] => []
  | item :: lst' =>
      if decide (item ∈ dset) then remove_duplicates_from dset lst'
      else item :: remove_duplicates_from ({[item]} ∪ dset) lst'
  end.

(** [remove_duplicates(lst)] *)
Definition remove_duplicates (lst : list A) : list A :=
  remove_duplicates_from ∅ lst.

End remove_duplicates.

(** [combine_ids(paramid_tuples)] *)
Definition combine_ids (paramid_tuples : list (list string)) : list string :=
  map (fun testid => join "-" testid) paramid_tuples.

Section cart_product_pytest.

(** [common_pytest_marks.get_param_argnames_as_list] and
    [common_pytest_marks.make_marked_parameter_value] are not in the
    sources. *)
Variable get_param_argnames_as_list : string -> list string.
Variable make_marked_parameter_value : list value -> list mark -> argvalue.

(** [cart_product_pytest(argnames, argvalues)] *)
Definition cart_product_pytest (argnames : list string) (argvalues : list (list argvalue))
  : outcome (list string * list argvalue) :=
  (* transform argnames into a list of lists *)
  let argnames_lists :=
    map (fun _argnames =>
           if (0 <? String.length _argnames)%nat then get_param_argnames_as_list _argnames
           else [])
        argnames in
  (* make the cartesian product per se *)
  argvalues_prod ← _cart_product_pytest argnames_lists argvalues;
  (* flatten the list of argnames *)
  let argnames_list := concat argnames_lists in
  (* apply all marks to the arvalues *)
  let argvalues_prod :=
    map (fun '(marks, argvalues) =>
           if (0 <? length marks)%nat then make_marked_parameter_value argvalues marks
           else Plain (VTuple argvalues))
        argvalues_prod in
  Ok (argnames_list, argvalues_prod).

End cart_product_pytest.

End common_pytest.

Module case_parametrizer_new.

Import common_pytest.

(** *** Objects *)

(** Modelled from the spec: [case_funcs_new.CaseInfo] is not in the sources;
    the case information attached to a case function holds its identifier,
    its marks and its tags. *)
Record CaseInfo := {
  case_id : option string;
  case_marks : list mark;
  case_tags : list string;
}.

(** A [@pytest.mark.parametrize] mark, as [get_pytest_parametrize_marks]
    returns it. *)
Record pmark := {
  param_names : list string;
  param_values : list argvalue;
  param_ids : option ids_argument;
}.

(** A function object, with the attributes that collection reads. *)
Record function := {
  __name__ : string;
  __module__ : string;
  __repr__ : string;                (* what [%r] prints *)
  co_firstlineno : Z;               (* [get_code_first_line] *)
  _pytestcase : option CaseInfo;    (* [CaseInfo.get_from] *)
  pytestmark : list mark;
  parametrize_marks : list pmark;   (* [get_pytest_parametrize_marks] *)
  funcargnames : list string;       (* [getfuncargnames] *)
}.

(** What [getattr(cls, "__init__")] or [getattr(cls, "__new__")] resolves
    to: the slot of [object], or one declared by the class or a base. *)
Inductive slot := object_slot | own_slot.

Record class_info := {
  cls_name : string;
  cls_module : string;
  cls_firstlineno : Z;              (* [get_code_first_line] *)
  cls___init__ : option slot;
  cls___new__ : option slot;
}.

(** The type of the raw entry [cls.__dict__[m_name]]. *)
Inductive wrapper := plain_function | staticmethod | classmethod.

(** The objects found by [getmembers]: a class comes with its members, in
    the order of [getmembers], each with its entry in [cls.__dict__] ([None]
    when the member is inherited). *)
#[warnings="-register-all"]
Inductive pyobj :=
| PyFunction (f : function)
| PyClass (c : class_info) (members : list (string * option wrapper * pyobj))
| PyOther (module_name : option string).

Record module := {
  mod_name : string;
  mod_members : list (string * pyobj);
}.

Record instance := {
  inst_class : class_info;
  inst_id : nat;
}.

(** A [functools.partial] object and the attributes set on it. *)
Record partial := {
  func : function;
  args : list instance;
  host_class : option class_info;
  partial___name__ : option string;
  partial__pytestcase : option CaseInfo;
  partial_pytestmark : list mark;
  partial_parametrize_marks : list pmark;
}.

(** A collected case: a function, or a method bound to an instance. *)
Inductive case_callable :=
| CaseFunction (f : function)
| CasePartial (p : partial).

(** *** The interpreter state: warnings, allocation, attribute tables *)

Inductive warning := CasesCollectionWarning (msg : string).

(** The object on which a fixture is placed: a class or a module. *)
Inductive host :=
| HostClass (module_name name : string)
| HostModule (name : string).

#[global] Instance host_eq_dec : EqDecision host.
Proof. solve_decision. Defined.

#[global] Program Instance host_countable : Countable host :=
  inj_countable'
    (fun h => match h with
              | HostClass m n => inl (m, n)
              | HostModule n => inr n
              end)
    (fun s => match s with
              | inl (m, n) => HostClass m n
              | inr n => HostModule n
              end) _.
Next Obligation. by intros []. Qed.

Inductive attribute :=
| Fixture (name : string) (f : function)
| Attribute (repr : string).

Record state := {
  warnings : list warning;
  next_object : nat;
  attributes : gmap (host * string) attribute;
}.

Definition M (A : Type) : Type := state -> outcome A * state.

#[global] Instance M_ret : MRet M := fun A a st => (Ok a, st).
#[global] Instance M_bind : MBind M := fun A B f m st =>
  match m st with
  | (Ok a, st') => f a st'
  | (Raise e, st') => (Raise e, st')
  end.

Definition raise {A : Type} (e : exception) : M A := fun st => (Raise e, st).
Definition lift {A : Type} (r : outcome A) : M A := fun st => (r, st).

(** [warn(w)] *)
Definition warn (w : warning) : M unit := fun st =>
  (Ok tt, {| warnings := warnings st ++ [w];
             next_object := next_object st;
             attributes := attributes st |}).

(** [cls()] for a class without constructor of its own: a new object. *)
Definition new_instance (c : class_info) : M instance := fun st =>
  (Ok {| inst_class := c; inst_id := next_object st |},
   {| warnings := warnings st;
      next_object := S (next_object st);
      attributes := attributes st |}).

(** [getattr(h, name, None)] *)
Definition getattr (h : host) (name : string) : M (option attribute) := fun st =>
  (Ok (attributes st !! (h, name)), st).

(** [setattr(h, name, v)] *)
Definition setattr (h : host) (name : string) (v : attribute) : M unit := fun st =>
  (Ok tt, {| warnings := warnings st;
             next_object := next_object st;
             attributes := <[(h, name) := v]> (attributes st) |}).

Section for_each_M.

Context {A S : Type} (body : S -> A -> M S).

Fixpoint for_each_M (xs : list A) (s : S) : M S :=
  match xs with
  | [] => mret s
  | x :: xs' => s' ← body s x; for_each_M xs' s'
  end.

End for_each_M.

(** *** [case_funcs_new] and [common_others] *)

(** Modelled from the spec: [case_funcs_new.is_case_class] is not in the
    sources; by the docstring of [get_all_cases], a class holds cases when
    its name follows the pattern [*Case*], and a class that is explicitly
    provided can have any name. *)
Definition is_case_class (o : pyobj) (check_name : bool) : bool :=
  match o with
  | PyClass c _ => negb check_name || contains "Case" (cls_name c)
  | _ => false
  end.

(** Modelled from the spec: [case_funcs_new.is_case_function] is not in the
    sources; "candidates are matched if their name starts with [prefix]". *)
Definition is_case_function (o : pyobj) (prefix : string) (check_prefix : bool) : bool :=
  match o with
  | PyFunction f => negb check_prefix || String.prefix prefix (__name__ f)
  | _ => false
  end.

Definition CASE_PREFIX_FUN : string := "case_".

(** Modelled from the spec: [common_others.get_code_first_line] is not in
    the sources; the first line of a function or class is an attribute of
    the object, which the external walker of objects provides. *)
Definition get_code_first_line (o : pyobj) : Z :=
  match o with
  | PyFunction f => co_firstlineno f
  | PyClass c _ => cls_firstlineno c
  | PyOther _ => 0
  end.

Definition getattr___module__ (o : pyobj) : option string :=
  match o with
  | PyFunction f => Some (__module__ f)
  | PyClass c _ => Some (cls_module c)
  | PyOther m => m
  end.

(** *** Case classes *)

Definition hasinit (c : class_info) : bool :=
  match cls___init__ c with
  | Some init => match init with object_slot => false | own_slot => true end
  | None => false
  end.

Definition hasnew (c : class_info) : bool :=
  match cls___new__ c with
  | Some new => match new with object_slot => false | own_slot => true end
  | None => false
  end.

Definition cannot_collect_init (name : string) : warning :=
  CasesCollectionWarning
    ("cannot collect cases class " +:+ repr_str name
     +:+ " because it has a __init__ constructor").

Definition cannot_collect_new (name : string) : warning :=
  CasesCollectionWarning
    ("cannot collect test class " +:+ repr_str name
     +:+ " because it has a __new__ constructor").

(** The declaration orders used as keys of [cases_dct]: line numbers, and
    line numbers plus a fraction.  The true division of Python is taken
    exactly, in the rationals. *)
Definition line (z : Z) : Qc := Q2Qc (inject_Z z).

Definition gen_line_nb (co_firstlineno : Z) (_i nb : nat) : Qc :=
  (line co_firstlineno + line (Z.of_nat _i) / line (Z.of_nat nb))%Qc.

(** [partial(m, cls())] followed by the copy of the metadata of [m]:
    [CaseInfo.copy_info] copies the case information and
    [copy_pytest_marks], with [override=True], the marks, among which the
    parametrization marks. *)
Definition bind_method (m : function) (cls : class_info) (self : instance) : partial :=
  (* partialize the function to get one without the 'self' argument *)
  let new_m := {| func := m; args := [self]; host_class := None;
                  partial___name__ := None; partial__pytestcase := None;
                  partial_pytestmark := []; partial_parametrize_marks := [] |} in
  (* remember the class *)
  let new_m := {| func := func new_m; args := args new_m; host_class := Some cls;
                  partial___name__ := partial___name__ new_m;
                  partial__pytestcase := partial__pytestcase new_m;
                  partial_pytestmark := partial_pytestmark new_m;
                  partial_parametrize_marks := partial_parametrize_marks new_m |} in
  (* we have to recopy all metadata concerning the case function *)
  let new_m := {| func := func new_m; args := args new_m; host_class := host_class new_m;
                  partial___name__ := Some (__name__ m);
                  partial__pytestcase := partial__pytestcase new_m;
                  partial_pytestmark := partial_pytestmark new_m;
                  partial_parametrize_marks := partial_parametrize_marks new_m |} in
  let new_m := {| func := func new_m; args := args new_m; host_class := host_class new_m;
                  partial___name__ := partial___name__ new_m;
                  partial__pytestcase := _pytestcase m;
                  partial_pytestmark := partial_pytestmark new_m;
                  partial_parametrize_marks := partial_parametrize_marks new_m |} in
  {| func := func new_m; args := args new_m; host_class := host_class new_m;
     partial___name__ := partial___name__ new_m;
     partial__pytestcase := partial__pytestcase new_m;
     partial_pytestmark := pytestmark m;
     partial_parametrize_marks := parametrize_marks m |}.

Section extraction.

Variable case_fun_prefix : string.

(** The legacy hook [_case_param_factory(m, co_firstlineno, cases_dct)],
    which fills the dictionary itself. *)
Variable _case_param_factory :
  option (case_callable -> Z -> gmap Qc case_callable -> gmap Qc case_callable).

(** The body of the loop [for m_name, m in getmembers(container, _of_interest)]
    of [_extract_cases_from_module_or_class]; [in_dict] is
    [cls.__dict__[m_name]] and [extract_class] is [extract_cases_from_class]
    called on a member. *)
Definition scan_member (extract_class : pyobj -> M (list case_callable))
    (cls : option class_info) (cases_dct : gmap Qc case_callable)
    (member : string * option wrapper * pyobj) : M (gmap Qc case_callable) :=
  let '(m_name, in_dict, m) := member in
  if is_case_class m true then
    let co_firstlineno := get_code_first_line m in
    cls_cases ← extract_class m;
    mret (foldl (fun dct '(_i, _m_item) =>
                   <[gen_line_nb co_firstlineno _i (length cls_cases) := _m_item]> dct)
                cases_dct (enumerate cls_cases))
  else if is_case_function m case_fun_prefix true then
    match m with
    | PyFunction f =>
        let co_firstlineno := get_code_first_line m in
        new_m ← match cls with
                | Some c =>
                    match in_dict with
                    | None => raise (KeyError m_name)
                    | Some staticmethod | Some classmethod => mret None (* skip it *)
                    | Some plain_function =>
                        self ← new_instance c;
                        mret (Some (CasePartial (bind_method f c self)))
                    end
                | None => mret (Some (CaseFunction f))
                end;
        match new_m with
        | None => mret cases_dct
        | Some m =>
            match _case_param_factory with
            | None => mret (<[line co_firstlineno := m]> cases_dct)
            | Some factory => mret (factory m co_firstlineno cases_dct)
            end
        end
    | _ => mret cases_dct
    end
  else mret cases_dct.

(** [[cases_dct[k] for k in sorted(cases_dct.keys())]] *)
Definition sorted_keys (cases_dct : gmap Qc case_callable) : list Qc :=
  merge_sort Qcle (map_to_list cases_dct).*1.

Definition cases_in_order (cases_dct : gmap Qc case_callable) : list case_callable :=
  omap (fun k => cases_dct !! k) (sorted_keys cases_dct).

(** The scan of the members of a container, then the conversion of the
    dictionary into a list. *)
Definition scan_members (extract_class : pyobj -> M (list case_callable))
    (cls : option class_info) (members : list (string * option wrapper * pyobj))
  : M (list case_callable) :=
  cases_dct ← for_each_M (scan_member extract_class cls) members ∅;
  mret (cases_in_order cases_dct).

(** [extract_cases_from_class(cls, check_name, case_fun_prefix,
    _case_param_factory)]; the call of
    [_extract_cases_from_module_or_class(cls=cls, ...)] is unfolded, the two
    functions being mutually recursive. *)
Fixpoint extract_cases_from_class (check_name : bool) (cls : pyobj)
  : M (list case_callable) :=
  match cls with
  | PyClass c members =>
      if is_case_class cls check_name then
        if hasinit c then
          _ ← warn (cannot_collect_init (cls_name c));
          mret []
        else if hasnew c then
          _ ← warn (cannot_collect_new (cls_name c));
          mret []
        else scan_members (extract_cases_from_class true) (Some c) members
      else mret []
  | _ => mret []
  end.

(** The container of [_extract_cases_from_module_or_class]. *)
Definition _of_interest (module : module) (f : pyobj) : bool :=
  match getattr___module__ f with
  | Some name => String.eqb name (mod_name module)
  | None => false
  end.

(** [_extract_cases_from_module_or_class(module, cls, case_fun_prefix,
    _case_param_factory)]; [cls] is a class with its members. *)
Definition _extract_cases_from_module_or_class (module : option module)
    (cls : option (class_info * list (string * option wrapper * pyobj)))
  : M (list case_callable) :=
  match cls, module with
  | Some (c, members), None =>
      scan_members (extract_cases_from_class true) (Some c) members
  | None, Some module =>
      (* only keep the functions from the module file (not the imported ones) *)
      scan_members (extract_cases_from_class true) None
        (map (fun '(m_name, m) => (m_name, None, m))
             (filter (fun '(_, m) => _of_interest module m = true) (mod_members module)))
  | _, _ => raise (ValueError "Only one of cls or module should be provided")
  end.

Section modules.

(** [importlib.import_module(name, package)] *)
Variable import_module : string -> option string -> outcome module.

(** [extract_cases_from_module(module, package_name, case_fun_prefix,
    _case_param_factory)]: [module] is a name or a module. *)
Definition extract_cases_from_module (module : string + module)
    (package_name : option string) : M (list case_callable) :=
  module ← match module with
           | inl name => lift (import_module name package_name)
           | inr module => mret module
           end;
  _extract_cases_from_module_or_class (Some module) None.

End modules.

End extraction.

(** *** Collection *)

(** [ModuleRef]: a module, the name of a module, or one of the singletons
    [AUTO], [AUTO2] and [THIS_MODULE]. *)
Inductive ModuleRef :=
| AUTO
| AUTO2
| THIS_MODULE
| ModuleName (name : string)
| ModuleObject (m : module).

(** The items of the [cases] argument of [get_all_cases]: a case function,
    a class with its members, or a reference to a module. *)
Inductive cases_item :=
| CaseFun (f : function)
| CaseCls (c : class_info) (members : list (string * option wrapper * pyobj))
| CasesOf (m : ModuleRef).

Section collection.

(** [importlib.import_module(name, package)] *)
Variable import_module : string -> option string -> outcome module.

Definition error_importing (f : function) (alt_name : bool) (cases_module_name : string)
  : string :=
  "Error importing test cases module to parametrize function " +:+ __repr__ f
  +:+ ": unable to import AUTO" +:+ (if alt_name then "2" else "")
  +:+ " cases module " +:+ repr_str cases_module_name
  +:+ ". Maybe you wish to import cases from somewhere else ? In that case please "
  +:+ "specify `cases=...`.".

(** The name of the module that [import_default_cases_module] tries to
    import. *)
Definition default_cases_module_name (f : function) (alt_name : bool) : outcome string :=
  if alt_name then
    let parts := split "." (__module__ f) in
    if String.eqb (take_string 5 (List.last parts "")) "test_" then
      Ok (join "." (removelast parts) +:+ ".cases_" +:+ drop_string 5 (List.last parts ""))
    else Raise AssertionError
  else Ok (__module__ f +:+ "_cases").

(** [import_default_cases_module(f, alt_name=False)] *)
Definition import_default_cases_module (f : function) (alt_name : bool) : outcome module :=
  cases_module_name ← default_cases_module_name f alt_name;
  match import_module cases_module_name None with
  | Raise (ImportError _) =>
      Raise (ValueError (error_importing f alt_name cases_module_name))
  | cases_module => cases_module
  end.

(** [matches_tag_query(c, has_tag=has_tag, filter=filters)] of
    [case_funcs_new], for the [has_tag], [glob] and [filter] of the call. *)
Variable matches_tag_query : case_callable -> bool.

(** [get_all_cases(parametrization_target, cases, prefix, glob, has_tag,
    filter)]; [cases] is the tuple that "handle single elements" builds.
    [CaseInfo.get_from(c, create=True, prefix_for_ids=prefix)] attaches the
    case information to [c] and is true of every case. *)
Definition get_all_cases (parametrization_target : function) (cases : list cases_item)
    (prefix : string) : M (list case_callable) :=
  (* parent package *)
  let caller_module_name := __module__ parametrization_target in
  let parent_pkg_name := join "." (removelast (split "." caller_module_name)) in
  (* start collecting all cases *)
  cases_funs ← for_each_M (fun cases_funs c =>
      match c with
      | CaseCls c members =>
          (* class: do not check name, it was explicitly passed *)
          new_cases ← extract_cases_from_class prefix None false (PyClass c members);
          mret (cases_funs ++ new_cases)
      | CaseFun f =>
          (* function: do not check prefix, it was explicitly passed *)
          if is_case_function (PyFunction f) prefix false then
            mret (cases_funs ++ [CaseFunction f])
          else raise (ValueError ("Unsupported case function: " +:+ __repr__ f))
      | CasesOf c =>
          (* module *)
          c ← (match c with
               | AUTO =>
                   m ← lift (import_default_cases_module parametrization_target false);
                   mret (inr m)
               | AUTO2 =>
                   m ← lift (import_default_cases_module parametrization_target true);
                   mret (inr m)
               | THIS_MODULE => mret (inl caller_module_name)
               | ModuleName name =>
                   mret (inl (if String.eqb name "." then caller_module_name else name))
               | ModuleObject m => mret (inr m)
               end : M (string + module));
          new_cases ← extract_cases_from_module prefix None import_module c
                        (Some parent_pkg_name);
          mret (cases_funs ++ new_cases)
      end) cases [];
  (* filter last, for easier debugging *)
  mret (filter (fun c => matches_tag_query c = true) cases_funs).

End collection.

(** *** From cases to argvalues *)

(** A call that pytest would make for a parametrized function. *)
Record CallSpec := {
  funcargs : list (string * value);
  callspec_id : string;
  callspec_marks : list mark;
}.

(** The items of the result of [case_to_argvalues]. *)
Inductive lazy_or_ref :=
| lazy_value (valuegetter : case_callable) (kwargs : list (string * value))
    (id : option string) (marks : list mark)
| fixture_ref (fixture : string).

(** A tuple of argvalues, or the marked parameter value that
    [make_marked_parameter_value] makes of it. *)
Inductive argvalues_tuple :=
| Tuple (items : list lazy_or_ref)
| Marked (items : list lazy_or_ref) (marks : list mark).

(** [getfuncargnames(function)] of the host framework: the names of the
    mandatory arguments; the arguments bound by a partial are not among
    them. *)
Definition getfuncargnames (fn : case_callable) : list string :=
  match fn with
  | CaseFunction f => funcargnames f
  | CasePartial p => drop (length (args p)) (funcargnames (func p))
  end.

Definition get_pytest_parametrize_marks (fn : case_callable) : list pmark :=
  match fn with
  | CaseFunction f => parametrize_marks f
  | CasePartial p => partial_parametrize_marks p
  end.

(** [CaseInfo.get_from(case_fun)] *)
Definition CaseInfo_get_from (case_fun : case_callable) : option CaseInfo :=
  match case_fun with
  | CaseFunction f => _pytestcase f
  | CasePartial p => partial__pytestcase p
  end.

Section binding.

(** [importlib.import_module(name, package)] *)
Variable import_module : string -> option string -> outcome module.

(** [Metafunc.parametrize(argnames, argvalues, ids, indirect=False,
    scope='function')] of the host framework, as a function of the calls
    made so far. *)
Variable parametrize :
  list CallSpec -> list string -> list argvalue -> option ids_argument ->
  outcome (list CallSpec).

Record MiniMetafunc := {
  fixturenames : list string;
  pmarks : list pmark;
  _calls : list CallSpec;
  required_fixtures : list string;
}.

(** [MiniMetafunc.update_callspecs], with [pytest.param] available *)
Definition update_callspecs (pmarks : list pmark) : outcome (list CallSpec) :=
  for_each (fun _calls pmark =>
      let argvals :=
        if Nat.eqb (length (param_names pmark)) 1 then
          map (fun v => if is_marked_parameter_value v then v
                        else match v with
                             | Plain v => Plain (VTuple [v])
                             | _ => v
                             end)
              (param_values pmark)
        else param_values pmark in
      parametrize _calls (param_names pmark) argvals (param_ids pmark))
    pmarks [].

(** [MiniMetafunc(func)] *)
Definition MiniMetafunc_init (fn : case_callable) : outcome MiniMetafunc :=
  let fixturenames := getfuncargnames fn in
  let pmarks := get_pytest_parametrize_marks fn in
  if (0 <? length pmarks)%nat then
    _calls ← update_callspecs pmarks;
    match _calls with
    | call0 :: _ =>
        Ok {| fixturenames := fixturenames; pmarks := pmarks; _calls := _calls;
              required_fixtures :=
                filter (fun n => n ∉ map fst (funcargs call0)) fixturenames |}
    | [] => Raise (IndexError "list index out of range")
    end
  else
    Ok {| fixturenames := fixturenames; pmarks := pmarks; _calls := [];
          required_fixtures := fixturenames |}.

Definition is_parametrized (meta : MiniMetafunc) : bool :=
  (0 <? length (pmarks meta))%nat.

Definition requires_fixtures (meta : MiniMetafunc) : bool :=
  (0 <? length (required_fixtures meta))%nat.

Definition str_option (o : option string) : string :=
  match o with
  | Some s => s
  | None => "None"
  end.

Definition should_check_msg : string :=
  "We should check if this is the same or another and generate a new name in that "
  +:+ "case".

(** [case_to_argvalues(case_fun)] *)
Definition case_to_argvalues (case_fun : case_callable) : M argvalues_tuple :=
  case_info ← match CaseInfo_get_from case_fun with
              | Some case_info => mret case_info
              | None => raise (AttributeError "'NoneType' object has no attribute 'id'")
              end;
  let case_id := case_id case_info in
  let case_marks := case_marks case_info in
  (* get the list of all calls that pytest *would* have made *)
  meta ← lift (MiniMetafunc_init case_fun);
  if negb (requires_fixtures meta) then
    if negb (is_parametrized meta) then
      (* single unparametrized case function *)
      mret (Tuple [lazy_value case_fun [] case_id case_marks])
    else
      (* parametrized. create one version of the callable for each parametrized call *)
      mret (Tuple (map (fun c =>
                          lazy_value case_fun (funcargs c)
                            (Some (str_option case_id +:+ "-" +:+ callspec_id c))
                            (callspec_marks c))
                       (_calls meta)))
  else
    (* at least a required fixture: create a fixture *)
    '(host_cls, case_fun) ←
      match case_fun with
      | CasePartial p =>
          match host_class p with
          | Some host_cls => mret (Some host_cls, func p)
          | None =>
              raise (AttributeError "'functools.partial' object has no attribute 'host_class'")
          end
      | CaseFunction f => mret (None, f)
      end;
    host_module ← lift (import_module (__module__ case_fun) None);
    let host := match host_cls with
                | Some c => HostClass (cls_module c) (cls_name c)
                | None => HostModule (mod_name host_module)
                end in
    match case_id with
    | None => raise (TypeError "getattr(): attribute name must be string")
    | Some case_id =>
        (* create a new fixture and place it on the host *)
        existing_fix ← getattr host case_id;
        _ ← match existing_fix with
            | None =>
                let new_fix := Fixture case_id case_fun in
                setattr host case_id new_fix
            | Some _ => raise (NotImplementedError should_check_msg)
            end;
        (* now reference the new or existing fixture *)
        let argvalues_tuple := [fixture_ref case_id] in
        mret (match case_marks with
              | _ :: _ => Marked argvalues_tuple case_marks
              | [] => Tuple argvalues_tuple
              end)
    end.

End binding.

End case_parametrizer_new.

(** * Vocabulary of the properties *)

Import common_pytest case_parametrizer_new.

(** The number of combinations that the dimensions call for. *)
Definition product_size (argvalues : list (list argvalue)) : nat :=
  foldr Nat.mul 1 (map length argvalues).

(** An entry that the loop of the product can handle for [nb_names] names:
    it has no id of its own and, for several names, its value is a lazy
    value or an iterable. *)
Definition entry_splits (nb_names : nat) (x : argvalue) : bool :=
  match extract_pset_info_single nb_names x with
  | Ok (None, _, x_value) =>
      if (1 <? nb_names)%nat then is_lazy_value x_value || is_ok (py_list x_value)
      else true
  | _ => false
  end.

Definition dimension_splits (d : dimension) : bool :=
  forallb (entry_splits (length (fst d))) (snd d).

(** An entry whose decomposition for [nb_names] names carries an id. *)
Definition has_explicit_id (nb_names : nat) (x : argvalue) : bool :=
  match extract_pset_info_single nb_names x with
  | Ok (Some _, _, _) => true
  | _ => false
  end.

(** An entry that decomposes and whose value, for several names, is a lazy
    value or an iterable: nothing but an id of its own can make the loop of
    the product raise on it. *)
Definition entry_unpacks (nb_names : nat) (x : argvalue) : bool :=
  match extract_pset_info_single nb_names x with
  | Ok (_, _, x_value) =>
      if (1 <? nb_names)%nat then is_lazy_value x_value || is_ok (py_list x_value)
      else true
  | Raise _ => false
  end.

Definition dimension_unpacks (d : dimension) : bool :=
  forallb (entry_unpacks (length (fst d))) (snd d).

(** [c in s] for a character *)
Fixpoint has_char (c : ascii) (s : string) : bool :=
  match s with
  | EmptyString => false
  | String c' s' => Ascii.eqb c' c || has_char c s'
  end.

(** A function that no module can be imported for. *)
Definition no_module : string -> option string -> outcome module :=
  fun name _ => Raise (ImportError ("No module named " +:+ repr_str name)).

(** A test function of the module [pkg.test_foo]. *)
Definition test_foo : function :=
  {| __name__ := "test_foo"; __module__ := "pkg.test_foo";
     __repr__ := "<function test_foo at 0x7f3a5c0d1e50>"; co_firstlineno := 7;
     _pytestcase := None; pytestmark := []; parametrize_marks := [];
     funcargnames := ["x"] |}.

(** The state after [warn(w)]. *)
Definition warned (w : warning) (st : state) : state := snd (warn w st).

(** The warning that a case class with a constructor of its own gets. *)
Definition cannot_collect (c : class_info) : warning :=
  if hasinit c then cannot_collect_init (cls_name c)
  else cannot_collect_new (cls_name c).

(** The method [m] of the class [cls], bound to the instance number
    [object_id] of the class. *)
Definition bound_case (m : function) (cls : class_info) (object_id : nat) : case_callable :=
  CasePartial
    {| func := m;
       args := [{| inst_class := cls; inst_id := object_id |}];
       host_class := Some cls;
       partial___name__ := Some (__name__ m);
       partial__pytestcase := _pytestcase m;
       partial_pytestmark := pytestmark m;
       partial_parametrize_marks := parametrize_marks m |}.

(** The state after the allocation of an object. *)
Definition allocated (st : state) : state :=
  {| warnings := warnings st; next_object := S (next_object st);
     attributes := attributes st |}.

(** The line where the function of a case is declared. *)
Definition declared_at (c : case_callable) : Z :=
  match c with
  | CaseFunction f => co_firstlineno f
  | CasePartial p => co_firstlineno (func p)
  end.

(** A dictionary of cases in which every case is at the line of its
    function. *)
Definition keyed_by_line (cases_dct : gmap Qc case_callable) : Prop :=
  forall k c, cases_dct !! k = Some c -> k = line (declared_at c).

(** Members none of which is taken for a case class. *)
Definition no_case_class (members : list (string * option wrapper * pyobj)) : bool :=
  forallb (fun '(_, _, m) => negb (is_case_class m true)) members.

(** Objects of the cases module [pkg.test_foo_cases]. *)
Definition case_function (name : string) (lineno : Z) (argnames : list string) : function :=
  {| __name__ := name; __module__ := "pkg.test_foo_cases";
     __repr__ := "<function " +:+ name +:+ " at 0x7f3a5c0d2040>";
     co_firstlineno := lineno;
     _pytestcase :=
       Some {| case_id := Some (drop_string 5 name); case_marks := []; case_tags := [] |};
     pytestmark := []; parametrize_marks := [];
     funcargnames := argnames |}.

Definition CasesFoo : class_info :=
  {| cls_name := "CasesFoo"; cls_module := "pkg.test_foo_cases"; cls_firstlineno := 12;
     cls___init__ := Some object_slot; cls___new__ := Some object_slot |}.

Definition CasesFoo_members : list (string * option wrapper * pyobj) :=
  [("case_one", Some staticmethod, PyFunction (case_function "case_one" 14 []));
   ("case_two", Some plain_function, PyFunction (case_function "case_two" 17 ["self"]));
   ("case_three", Some plain_function, PyFunction (case_function "case_three" 20 ["self"]))].

Definition test_foo_cases : module :=
  {| mod_name := "pkg.test_foo_cases";
     mod_members :=
       [("CasesFoo", PyClass CasesFoo CasesFoo_members);
        ("case_a", PyFunction (case_function "case_a" 5 []));
        ("case_z", PyFunction (case_function "case_z" 30 []));
        ("os", PyOther None)] |}.

Definition initial_state : state :=
  {| warnings := []; next_object := 0; attributes := ∅ |}.

(** An import that finds every module. *)
Definition importable : string -> option string -> outcome module :=
  fun name _ => Ok {| mod_name := name; mod_members := [] |}.

(** A host framework whose [parametrize] is never reached. *)
Definition no_parametrize :
  list CallSpec -> list string -> list argvalue -> option ids_argument ->
  outcome (list CallSpec) :=
  fun _calls _ _ _ => Ok _calls.

(** The body of the loop of [extract_parameterset_info]. *)
Definition extract_parameterset_info_body (nbnames : nat) (check_nb : bool)
    (acc : list (option string) * list (option (list mark)) * list value)
  : argvalue ->
    outcome (list (option string) * list (option (list mark)) * list value) :=
  let '(pids, pmarks, pvalues) := acc in
  fun v =>
  '(_pid, _pmark, _pvalue) ← extract_pset_info_single nbnames v;
  let pids := pids ++ [_pid] in
  let pmarks := pmarks ++ [_pmark] in
  let pvalues := pvalues ++ [_pvalue] in
  if check_nb && (1 <? nbnames)%nat then
    n ← py_len _pvalue;
    if negb (Nat.eqb n nbnames) then
      Raise (ValueError (inconsistent_number_of_values n nbnames _pvalue))
    else Ok (pids, pmarks, pvalues)
  else Ok (pids, pmarks, pvalues).

(** The combination made of two combinations: their marks, then their
    values, put end to end. *)
Definition merge_combination (c1 c2 : list mark * list value) : list mark * list value :=
  (fst c1 ++ fst c2, snd c1 ++ snd c2).

(** Every combination of the first list merged with every combination of
    the second, the first list varying slowest. *)
Definition all_combinations (p1 p2 : list (list mark * list value))
  : list (list mark * list value) :=
  flat_map (fun c1 => map (merge_combination c1) p2) p1.

(** The marks and values that an entry brings to its combinations. *)
Definition entry_combination (nb_names : nat) (x : argvalue)
  : outcome (list mark * list value) :=
  '(x_id, x_marks, x_value) ← extract_pset_info_single nb_names x;
  match x_id with
  | Some _ => Raise (ValueError sub_param_id_msg)
  | None =>
      x_value_lst ← (if (1 <? nb_names)%nat then
                       if is_lazy_value x_value then as_lazy_items_list x_value nb_names
                       else py_list x_value
                     else Ok [x_value]);
      Ok (match x_marks with Some ms => ms | None => [] end, x_value_lst)
  end.

(** An entry that has, for several names, as many items as names. *)
Definition entry_has_arity (nb_names : nat) (x : argvalue) : bool :=
  match extract_pset_info_single nb_names x with
  | Ok (_, _, x_value) =>
      if (1 <? nb_names)%nat then
        is_lazy_value x_value ||
        match py_len x_value with
        | Ok n => Nat.eqb n nb_names
        | Raise _ => false
        end
      else true
  | Raise _ => false
  end.

Definition dimension_has_arity (d : dimension) : bool :=
  (0 <? length (fst d))%nat && forallb (entry_has_arity (length (fst d))) (snd d).

(** A module none of whose members is taken for a case class. *)
Definition module_without_case_class (module : module) : bool :=
  forallb (fun '(_, m) => negb (is_case_class m true)) (mod_members module).



(** What [case_to_argvalues] is about to do for a case, before it looks at
    the host: to return argvalues, or to place a fixture on a host under a
    name and to return a reference to it. *)
Inductive binding_plan :=
| NoBinding (r : argvalues_tuple)
| Binding (h : host) (name : string) (new_fix : attribute) (r : argvalues_tuple).

Definition case_binding_plan (import_module : string -> option string -> outcome module)
    (parametrize :
       list CallSpec -> list string -> list argvalue -> option ids_argument ->
       outcome (list CallSpec))
    (case_fun : case_callable) : outcome binding_plan :=
  match CaseInfo_get_from case_fun with
  | None => Raise (AttributeError "'NoneType' object has no attribute 'id'")
  | Some case_info =>
      meta ← MiniMetafunc_init parametrize case_fun;
      if negb (requires_fixtures meta) then
        if negb (is_parametrized meta) then
          Ok (NoBinding (Tuple [lazy_value case_fun [] (case_id case_info)
                                  (case_marks case_info)]))
        else
          Ok (NoBinding (Tuple (map (fun c =>
                                       lazy_value case_fun (funcargs c)
                                         (Some (str_option (case_id case_info) +:+ "-"
                                                +:+ callspec_id c))
                                         (callspec_marks c))
                                    (_calls meta))))
      else
        '(host_cls, f) ←
          match case_fun with
          | CasePartial p =>
              match host_class p with
              | Some host_cls => Ok (Some host_cls, func p)
              | None =>
                  Raise (AttributeError
                           "'functools.partial' object has no attribute 'host_class'")
              end
          | CaseFunction f => Ok (None, f)
          end;
        host_module ← import_module (__module__ f) None;
        match case_id case_info with
        | None => Raise (TypeError "getattr(): attribute name must be string")
        | Some name =>
            Ok (Binding
                  match host_cls with
                  | Some c => HostClass (cls_module c) (cls_name c)
                  | None => HostModule (mod_name host_module)
                  end
                  name (Fixture name f)
                  match case_marks case_info with
                  | _ :: _ => Marked [fixture_ref name] (case_marks case_info)
                  | [] => Tuple [fixture_ref name]
                  end)
        end
  end.

(** The state with one more attribute on a host. *)
Definition with_attribute (h : host) (name : string) (v : attribute) (st : state) : state :=
  {| warnings := warnings st; next_object := next_object st;
     attributes := <[(h, name) := v]> (attributes st) |}.


(** * Properties *)

(** ** Loops *)

Lemma for_each_app {A S : Type} (body : S -> A -> outcome S) (xs ys : list A) (s : S) :
  for_each body (xs ++ ys) s = s' ← for_each body xs s; for_each body ys s'.
Proof.
  revert s. induction xs as [|x xs IH]; intros s; simpl; [done|].
  destruct (body s x) as [s'|e]; simpl; [apply IH | done].
Qed.

(** An invariant kept by every successful iteration is kept by the loop. *)
Lemma for_each_invariant {A S : Type} (body : S -> A -> outcome S) (I : S -> Prop)
    (xs : list A) (s s' : S) :
  (forall s x s', x ∈ xs -> I s -> body s x = Ok s' -> I s') ->
  I s -> for_each body xs s = Ok s' -> I s'.
Proof.
  revert s. induction xs as [|x xs IH]; intros s Hbody Hs; simpl.
  - by intros [= <-].
  - destruct (body s x) as [s1|e] eqn:Hx; simpl; [|done].
    apply IH; [|eapply Hbody; [left | done..]].
    intros ? ? ? ?. apply Hbody. by right.
Qed.

(** A loop raises as soon as one of its iterations always raises. *)
Lemma for_each_raises {A S : Type} (body : S -> A -> outcome S) (xs : list A) (x : A) (s : S) :
  x ∈ xs -> (forall s, is_ok (body s x) = false) -> is_ok (for_each body xs s) = false.
Proof.
  intros Hin Hx. revert s. induction xs as [|y xs IH]; intros s; simpl.
  - by apply elem_of_nil in Hin.
  - apply elem_of_cons in Hin as [->|Hin].
    + specialize (Hx s). by destruct (body s y).
    + destruct (body s y); simpl; [by apply IH | done].
Qed.

(** ** Stateful loops *)

Lemma bind_M {A B : Type} (m : M A) (f : A -> M B) (st : state) :
  (m ≫= f) st =
    match m st with
    | (Ok a, st') => f a st'
    | (Raise e, st') => (Raise e, st')
    end.
Proof. reflexivity. Qed.

Lemma for_each_M_app {A S : Type} (body : S -> A -> M S) (xs ys : list A) (s : S)
    (st : state) :
  for_each_M body (xs ++ ys) s st
  = (s' ← for_each_M body xs s; for_each_M body ys s') st.
Proof.
  revert s st. induction xs as [|x xs IH]; intros s st; simpl; [done|].
  rewrite !bind_M. destruct (body s x st) as [[s'|e] st']; [apply IH | done].
Qed.

(** ** The decomposer *)

(** C7, as the code has it: a plain argvalue is decomposed into the id
    [None], the marks [None] (and not an empty list) and the value itself;
    a marked argvalue for exactly one name is decomposed into its id, its
    marks and the first of its values; for zero or several names its values
    are kept as a tuple, unchanged. *)
Theorem extract_pset_info_single_spec :
  (forall nbnames v,
     extract_pset_info_single nbnames (Plain v) = Ok (None, None, v)) /\
  (forall v values marks id,
     extract_pset_info_single 1 (ParameterSet (v :: values) marks id)
     = Ok (id, Some marks, v)) /\
  (forall nbnames values marks id,
     extract_pset_info_single (S (S nbnames)) (ParameterSet values marks id)
     = Ok (id, Some marks, VTuple values)).
Proof. done. Qed.

(** C7 as stated fails: the marks of a plain argvalue are not the empty
    list. *)
Lemma extract_pset_info_single_plain_marks :
  extract_pset_info_single 1 (Plain (VInt 5)) <> Ok (None, Some [], VInt 5)
  /\ extract_pset_info_single 1 (Plain (VInt 5)) = Ok (None, None, VInt 5).
Proof. split; [discriminate | reflexivity]. Qed.

(** ** The cartesian product *)

Lemma cart_product_step_length argnames_lists several sub_product result x result' :
  cart_product_step argnames_lists several sub_product result x = Ok result' ->
  length result' = length result + (if several then length sub_product else 1).
Proof.
  unfold cart_product_step. destruct argnames_lists as [|names0 ?]; simpl; [done|].
  destruct (extract_pset_info_single _ x) as [[[x_id x_marks] x_value]|]; simpl; [|done].
  destruct x_id; [done|].
  match goal with |- context [mbind _ ?r] => destruct r as [x_value_lst|] end; simpl; [|done].
  destruct several; intros [= <-]; rewrite length_app; [|done].
  by rewrite length_map.
Qed.

Lemma cart_product_loop_length argnames_lists several sub_product xs result result' :
  for_each (cart_product_step argnames_lists several sub_product) xs result = Ok result' ->
  length result' =
    length result + length xs * (if several then length sub_product else 1).
Proof.
  revert result. induction xs as [|x xs IH]; intros result; simpl.
  - intros [= <-]. lia.
  - destruct (cart_product_step _ _ _ result x) as [r1|] eqn:Hx; simpl; [|done].
    intros Hxs. apply IH in Hxs. apply cart_product_step_length in Hx. lia.
Qed.

Lemma _cart_product_pytest_length argnames_lists argvalues product :
  _cart_product_pytest argnames_lists argvalues = Ok product ->
  length product = product_size argvalues.
Proof.
  revert argnames_lists product.
  induction argvalues as [|argvalues0 rest IH]; intros argnames_lists product; [done|].
  cbn [_cart_product_pytest]. destruct rest as [|argvalues1 rest].
  - simpl. intros H. apply cart_product_loop_length in H.
    unfold product_size. simpl in *. lia.
  - destruct (_cart_product_pytest (tail argnames_lists) (argvalues1 :: rest))
      as [sub_product|] eqn:Hsub; simpl; [|done].
    intros H. apply cart_product_loop_length in H. apply IH in Hsub.
    unfold product_size in *. simpl in *. lia.
Qed.

Lemma cart_product_step_ok names0 argnames_lists several sub_product result x :
  entry_splits (length names0) x = true ->
  is_ok (cart_product_step (names0 :: argnames_lists) several sub_product result x) = true.
Proof.
  unfold entry_splits, cart_product_step. simpl.
  destruct (extract_pset_info_single _ x) as [[[[?|] x_marks] x_value]|]; simpl; try done.
  destruct (1 <? length names0)%nat.
  - destruct x_value; simpl; try done; by destruct several.
  - by destruct several.
Qed.

Lemma cart_product_loop_ok names0 argnames_lists several sub_product xs result :
  forallb (entry_splits (length names0)) xs = true ->
  is_ok (for_each (cart_product_step (names0 :: argnames_lists) several sub_product)
           xs result) = true.
Proof.
  revert result. induction xs as [|x xs IH]; intros result; simpl; [done|].
  intros [Hx Hxs]%andb_prop.
  pose proof (cart_product_step_ok names0 argnames_lists several sub_product result x Hx) as H.
  destruct (cart_product_step _ _ _ result x); simpl; [by apply IH | done].
Qed.

Lemma product_of_dimensions_ok (dimensions : list dimension) :
  dimensions <> [] ->
  forallb dimension_splits dimensions = true ->
  is_ok (product_of_dimensions dimensions) = true.
Proof.
  unfold product_of_dimensions.
  induction dimensions as [|[names0 argvalues0] rest IH]; [done|].
  intros _ [H0 Hrest]%andb_prop. cbn [map fst snd _cart_product_pytest tail].
  destruct rest as [|d1 rest].
  - simpl. by apply cart_product_loop_ok.
  - specialize (IH ltac:(done) Hrest). cbn [map] in *.
    destruct (_cart_product_pytest _ (snd d1 :: _)); simpl; [|done].
    by apply cart_product_loop_ok.
Qed.

(** C1: the product of a non-empty list of dimensions, when it is
    returned, has as many combinations as the product of the numbers of raw
    entries of the dimensions; and it is returned whenever every entry can be
    split over the names of its dimension and has no id of its own. *)
Theorem cart_product_size (dimensions : list dimension) :
  dimensions <> [] ->
  (forall product,
     product_of_dimensions dimensions = Ok product ->
     length product = product_size (map snd dimensions)) /\
  (forallb dimension_splits dimensions = true ->
   exists product, product_of_dimensions dimensions = Ok product).
Proof.
  intros Hne. split.
  - intros product. apply _cart_product_pytest_length.
  - intros Hsplits. pose proof (product_of_dimensions_ok dimensions Hne Hsplits) as H.
    destruct (product_of_dimensions dimensions) as [product|]; [by exists product | done].
Qed.

Lemma cart_product_size_witness :
  let dimensions : list dimension :=
    [(["a"], [Plain (VInt 1); ParameterSet [VInt 2] [MarkDecorator "skip"] None]);
     (["b"; "c"], [Plain (VTuple [VInt 3; VInt 4]); Plain (VLazy "case_x")])] in
  exists product,
    product_of_dimensions dimensions = Ok product /\ length product = 4.
Proof.
  intros dimensions.
  destruct (cart_product_size dimensions ltac:(discriminate)) as [Hsize Hok].
  destruct (Hok eq_refl) as [product Hproduct].
  exists product. split; [done|]. by rewrite (Hsize product Hproduct).
Defined.

(** *** Explicit ids *)

Lemma cart_product_step_forbidden names0 argnames_lists several sub_product result x :
  has_explicit_id (length names0) x = true ->
  cart_product_step (names0 :: argnames_lists) several sub_product result x
  = Raise (ValueError sub_param_id_msg).
Proof.
  unfold has_explicit_id, cart_product_step. simpl.
  by destruct (extract_pset_info_single _ x) as [[[[?|] ?] ?]|].
Qed.

Lemma cart_product_step_only_forbidden names0 argnames_lists several sub_product result x e :
  entry_unpacks (length names0) x = true ->
  cart_product_step (names0 :: argnames_lists) several sub_product result x = Raise e ->
  e = ValueError sub_param_id_msg.
Proof.
  unfold entry_unpacks, cart_product_step. simpl.
  destruct (extract_pset_info_single _ x) as [[[[?|] x_marks] x_value]|]; simpl; try done.
  - by intros _ [= <-].
  - destruct (1 <? length names0)%nat.
    + destruct x_value; simpl; try done; by destruct several.
    + by destruct several.
Qed.

Lemma for_each_only_raises {A S : Type} (body : S -> A -> outcome S) (xs : list A)
    (s : S) (e0 e : exception) :
  (forall s x e, x ∈ xs -> body s x = Raise e -> e = e0) ->
  for_each body xs s = Raise e -> e = e0.
Proof.
  revert s. induction xs as [|x xs IH]; intros s Hbody; simpl; [done|].
  destruct (body s x) as [s'|e'] eqn:Hx; simpl.
  - apply IH. intros ? ? ? ?. apply Hbody. by right.
  - intros [= <-]. eapply Hbody; [left | done].
Qed.

Lemma product_of_dimensions_raises (dimensions : list dimension) d x :
  d ∈ dimensions -> x ∈ snd d -> has_explicit_id (length (fst d)) x = true ->
  is_ok (product_of_dimensions dimensions) = false.
Proof.
  unfold product_of_dimensions. intros Hd Hx Hid.
  induction dimensions as [|[names0 argvalues0] rest IH]; [by apply elem_of_nil in Hd|].
  cbn [map fst snd _cart_product_pytest tail].
  apply elem_of_cons in Hd as [->|Hd].
  - match goal with |- context [mbind _ ?r] => destruct r as [sub_product|] end;
      simpl; [|done].
    apply for_each_raises with (x := x); [done|].
    intros result. by rewrite cart_product_step_forbidden.
  - specialize (IH Hd). destruct rest as [|d1 rest]; [by apply elem_of_nil in Hd|].
    cbn [map] in *. by destruct (_cart_product_pytest _ (snd d1 :: _)).
Qed.

Lemma product_of_dimensions_only_forbidden (dimensions : list dimension) e :
  forallb dimension_unpacks dimensions = true ->
  dimensions <> [] ->
  product_of_dimensions dimensions = Raise e -> e = ValueError sub_param_id_msg.
Proof.
  unfold product_of_dimensions. revert e.
  induction dimensions as [|[names0 argvalues0] rest IH]; intros e; [done|].
  intros [H0 Hrest]%andb_prop _. cbn [map fst snd _cart_product_pytest tail].
  assert (forall sub_product several result e,
    for_each (cart_product_step (names0 :: map fst rest) several sub_product)
      argvalues0 result = Raise e -> e = ValueError sub_param_id_msg) as Hloop.
  { intros sub_product several result e'. apply for_each_only_raises.
    intros s x e'' Hx. apply cart_product_step_only_forbidden.
    unfold dimension_unpacks in H0. simpl in H0.
    rewrite forallb_forall in H0. apply H0. by apply list_elem_of_In. }
  destruct rest as [|d1 rest].
  - simpl. apply Hloop.
  - specialize (IH e Hrest ltac:(done)). cbn [map] in *.
    destruct (_cart_product_pytest _ (snd d1 :: _)); simpl.
    + apply Hloop.
    + intros [= <-]. by apply IH.
Qed.

(** C3: an entry of a dimension whose decomposition carries an id makes the
    loop of the product raise the [ValueError] of sub-param ids when it
    reaches the entry; the product of dimensions that hold such an entry
    never returns combinations; and the exception it raises is that
    [ValueError] whenever no entry fails to decompose or to unpack. *)
Theorem explicit_id_forbidden_in_product (dimensions : list dimension) (d : dimension)
    (x : argvalue) :
  d ∈ dimensions -> x ∈ snd d -> has_explicit_id (length (fst d)) x = true ->
  (forall argnames_lists several sub_product result,
     cart_product_step (fst d :: argnames_lists) several sub_product result x
     = Raise (ValueError sub_param_id_msg)) /\
  is_ok (product_of_dimensions dimensions) = false /\
  (forallb dimension_unpacks dimensions = true ->
   product_of_dimensions dimensions = Raise (ValueError sub_param_id_msg)).
Proof.
  intros Hd Hx Hid. split; [|split].
  - intros. by apply cart_product_step_forbidden.
  - by eapply product_of_dimensions_raises.
  - intros Hunpacks.
    pose proof (product_of_dimensions_raises dimensions d x Hd Hx Hid) as Hraises.
    destruct (product_of_dimensions dimensions) as [|e] eqn:Hprod; [done|].
    f_equal. eapply product_of_dimensions_only_forbidden; [done| |done].
    intros ->. by apply elem_of_nil in Hd.
Qed.

Lemma explicit_id_forbidden_in_product_witness :
  product_of_dimensions
    [(["a"], [Plain (VInt 1); Plain (VInt 2)]);
     (["b"; "c"], [Plain (VTuple [VInt 3; VInt 4]);
                   ParameterSet [VInt 5; VInt 6] [] (Some "five_six")])]
  = Raise (ValueError sub_param_id_msg).
Proof.
  refine (proj2 (proj2 (explicit_id_forbidden_in_product _
    (["b"; "c"], [Plain (VTuple [VInt 3; VInt 4]);
                  ParameterSet [VInt 5; VInt 6] [] (Some "five_six")])
    (ParameterSet [VInt 5; VInt 6] [] (Some "five_six")) _ _ _)) _).
  - apply list_elem_of_further, list_elem_of_here.
  - apply list_elem_of_further, list_elem_of_here.
  - reflexivity.
  - reflexivity.
Defined.

(** *** Number of values of an entry *)

(** C4 as stated fails: the product accepts, for the two names [a, b], an
    entry whose value is a 3-tuple and puts its three items in the
    combination; so does [extract_parameterset_info] when [check_nb] is
    off. *)
Lemma three_values_for_two_names_accepted :
  _cart_product_pytest [["a"; "b"]] [[Plain (VTuple [VInt 1; VInt 2; VInt 3])]]
  = Ok [([], [VInt 1; VInt 2; VInt 3])]
  /\ extract_parameterset_info ["a"; "b"] [Plain (VTuple [VInt 1; VInt 2; VInt 3])] false
     = Ok ([None], [None], [VTuple [VInt 1; VInt 2; VInt 3]]).
Proof. split; reflexivity. Qed.

(** C4, as the code has it: with [check_nb] on and several names,
    [extract_parameterset_info] raises the [ValueError] of inconsistent
    numbers of values at the first entry whose decomposed value has a length
    other than the number of names. *)
Theorem inconsistent_argument_count (argnames : list string)
    (before after : list argvalue) (x : argvalue) acc _pid _pmark _pvalue (n : nat) :
  1 < length argnames ->
  extract_parameterset_info argnames before true = Ok acc ->
  extract_pset_info_single (length argnames) x = Ok (_pid, _pmark, _pvalue) ->
  py_len _pvalue = Ok n ->
  n <> length argnames ->
  extract_parameterset_info argnames (before ++ x :: after) true
  = Raise (ValueError (inconsistent_number_of_values n (length argnames) _pvalue)).
Proof.
  unfold extract_parameterset_info. intros Hnb Hbefore Hx Hlen Hn.
  rewrite for_each_app, Hbefore. simpl. destruct acc as [[pids pmarks] pvalues].
  rewrite Hx. simpl. apply Nat.ltb_lt in Hnb. rewrite Hnb, Hlen. simpl.
  apply Nat.eqb_neq in Hn. by rewrite Hn.
Qed.

Lemma inconsistent_argument_count_witness :
  extract_parameterset_info ["a"; "b"]
    [Plain (VTuple [VInt 1; VInt 2]); Plain (VTuple [VInt 1; VInt 2; VInt 3])] true
  = Raise (ValueError
      "Inconsistent number of values in pytest parametrize: 3 items found while the number of parameters is 2: (1, 2, 3).").
Proof.
  apply (inconsistent_argument_count ["a"; "b"] [Plain (VTuple [VInt 1; VInt 2])] []
           (Plain (VTuple [VInt 1; VInt 2; VInt 3]))
           ([None], [None], [VTuple [VInt 1; VInt 2]]) None None
           (VTuple [VInt 1; VInt 2; VInt 3]) 3).
  - simpl. lia.
  - reflexivity.
  - reflexivity.
  - reflexivity.
  - simpl. lia.
Defined.

(** ** Test ids *)

Section test_ids_properties.

Variable _idval : value -> string -> nat -> string.

(** The loop of [make_test_ids] over [enumerate(id_marks)]. *)
Lemma id_marks_loop (k : nat) (id_marks : list (option string)) (p_ids p_ids' : list string) :
  for_each (fun p_ids '(i, _id) =>
              match _id with
              | Some s => setitem p_ids i s
              | None => Ok p_ids
              end) (enumerate_from k id_marks) p_ids = Ok p_ids' ->
  length p_ids' = length p_ids /\
  forall i,
    p_ids' !! i =
      match (if (k <=? i)%nat then id_marks !! (i - k) else None) with
      | Some (Some _id) => Some _id
      | _ => p_ids !! i
      end.
Proof.
  revert k p_ids. induction id_marks as [|m ms IH]; intros k p_ids; simpl.
  - intros [= <-]. split; [done|]. intros i. by destruct (k <=? i)%nat.
  - assert (forall i q,
      match (if (S k <=? i)%nat then ms !! (i - S k) else None) with
      | Some (Some _id) => Some _id
      | _ => q
      end =
      if decide (i = k) then q
      else match (if (k <=? i)%nat then (m :: ms) !! (i - k) else None) with
           | Some (Some _id) => Some _id
           | _ => q
           end) as Hshift.
    { intros i q. destruct (decide (i = k)) as [->|Hik].
      - by destruct (S k <=? k)%nat eqn:Hle; [apply Nat.leb_le in Hle; lia|].
      - destruct (k <=? i)%nat eqn:Hki.
        + apply Nat.leb_le in Hki.
          destruct (S k <=? i)%nat eqn:Hle; [|apply Nat.leb_gt in Hle; lia].
          by replace (i - k) with (S (i - S k)) by lia.
        + apply Nat.leb_gt in Hki.
          destruct (S k <=? i)%nat eqn:Hle; [apply Nat.leb_le in Hle; lia|done]. }
    destruct m as [s|]; simpl.
    + unfold setitem. destruct (k <? length p_ids)%nat eqn:Hk; simpl; [|done].
      apply Nat.ltb_lt in Hk. intros [Hlen Hget]%IH.
      rewrite length_insert in Hlen. split; [done|]. intros i.
      rewrite Hget, Hshift. destruct (decide (i = k)) as [->|Hik].
      * rewrite list_lookup_insert_eq by done.
        by rewrite Nat.leb_refl, Nat.sub_diag.
      * by rewrite list_lookup_insert_ne.
    + intros [Hlen Hget]%IH. split; [done|]. intros i.
      rewrite Hget, Hshift. destruct (decide (i = k)) as [->|Hik]; [|done].
      by rewrite Nat.leb_refl, Nat.sub_diag.
Qed.

Lemma id_marks_loop_ok (k : nat) (id_marks : list (option string)) (p_ids : list string) :
  k + length id_marks <= length p_ids ->
  is_ok (for_each (fun p_ids '(i, _id) =>
                     match _id with
                     | Some s => setitem p_ids i s
                     | None => Ok p_ids
                     end) (enumerate_from k id_marks) p_ids) = true.
Proof.
  revert k p_ids. induction id_marks as [|m ms IH]; intros k p_ids; simpl; [done|].
  intros Hlen. destruct m as [s|]; simpl.
  - unfold setitem. destruct (k <? length p_ids)%nat eqn:Hk; simpl.
    + apply IH. rewrite length_insert. lia.
    + apply Nat.ltb_ge in Hk. lia.
  - apply IH. lia.
Qed.

(** C8: in the ids that [make_test_ids] returns, the id that a value
    carries itself comes first, then the global ids (a list of ids, or a
    callable applied to each value), then the precomputed ids or the ids
    made from the names and values; and the ids are returned whenever the
    ids of the two last kinds are at least as many as the values. *)
Theorem make_test_ids_precedence (global_ids : option ids_argument)
    (id_marks : list (option string)) (argnames : option (list string))
    (argvalues : option (list value)) (precomputed_ids : option (list string)) :
  (forall p_ids i,
     make_test_ids _idval global_ids id_marks argnames argvalues precomputed_ids
     = Ok p_ids ->
     p_ids !! i =
       match id_marks !! i with
       | Some (Some _id) => Some _id
       | _ =>
           match global_ids with
           | Some (IdsList ids) => ids !! i
           | Some (IdsCallable idfn) => idfn <$> (argvalues ≫= (.!! i))
           | None =>
               match precomputed_ids with
               | Some pre => pre !! i
               | None =>
                   match make_test_ids_from_param_values _idval argnames argvalues with
                   | Ok made => made !! i
                   | Raise _ => None
                   end
               end
           end
       end) /\
  (forall ids,
     global_ids = Some (IdsList ids) -> length id_marks <= length ids ->
     is_ok (make_test_ids _idval global_ids id_marks argnames argvalues precomputed_ids)
     = true) /\
  (forall idfn vs,
     global_ids = Some (IdsCallable idfn) -> argvalues = Some vs ->
     length id_marks <= length vs ->
     is_ok (make_test_ids _idval global_ids id_marks argnames argvalues precomputed_ids)
     = true) /\
  (forall made,
     global_ids = None -> precomputed_ids = None ->
     make_test_ids_from_param_values _idval argnames argvalues = Ok made ->
     length id_marks <= length made ->
     is_ok (make_test_ids _idval global_ids id_marks argnames argvalues precomputed_ids)
     = true).
Proof.
  unfold make_test_ids, enumerate. split; [|split; [|split]].
  - intros p_ids i.
    match goal with |- context [mbind _ ?r] => destruct r as [base|] eqn:Hbase end;
      simpl; [|done].
    intros [_ Hget]%id_marks_loop. rewrite Hget. simpl. rewrite Nat.sub_0_r.
    destruct (id_marks !! i) as [[?|]|]; try done.
    + destruct global_ids as [[ids|idfn]|].
      * by injection Hbase as ->.
      * destruct argvalues as [vs|]; [|done]. injection Hbase as <-.
        simpl. by rewrite list_lookup_fmap.
      * destruct precomputed_ids as [pre|]; [|by rewrite Hbase].
        destruct (is_Some_b argnames || is_Some_b argvalues); [done|].
        by injection Hbase as ->.
    + destruct global_ids as [[ids|idfn]|].
      * by injection Hbase as ->.
      * destruct argvalues as [vs|]; [|done]. injection Hbase as <-.
        simpl. by rewrite list_lookup_fmap.
      * destruct precomputed_ids as [pre|]; [|by rewrite Hbase].
        destruct (is_Some_b argnames || is_Some_b argvalues); [done|].
        by injection Hbase as ->.
  - intros ids -> Hlen. simpl. by apply id_marks_loop_ok.
  - intros idfn vs -> -> Hlen. simpl. apply id_marks_loop_ok. by rewrite length_map.
  - intros made -> -> -> Hlen. simpl. by apply id_marks_loop_ok.
Qed.

End test_ids_properties.

Lemma make_test_ids_precedence_witness :
  let _idval := fun (_ : value) (argname : string) (idx : nat) => argname +:+ str_nat idx in
  make_test_ids _idval (Some (IdsList ["g0"; "g1"])) [None; Some "mine"]
    (Some ["a"]) (Some [VInt 1; VInt 2]) None = Ok ["g0"; "mine"]
  /\ is_ok (make_test_ids _idval (Some (IdsList ["g0"; "g1"])) [None; Some "mine"]
              (Some ["a"]) (Some [VInt 1; VInt 2]) None) = true
  /\ is_ok (make_test_ids _idval (Some (IdsCallable str_value)) [None; Some "mine"]
              (Some ["a"]) (Some [VInt 1; VInt 2]) None) = true
  /\ is_ok (make_test_ids _idval None [None; Some "mine"]
              (Some ["a"]) (Some [VInt 1; VInt 2]) None) = true.
Proof.
  intros _idval. split; [reflexivity|]. split; [|split].
  - apply (proj1 (proj2 (make_test_ids_precedence _idval (Some (IdsList ["g0"; "g1"]))
      [None; Some "mine"] (Some ["a"]) (Some [VInt 1; VInt 2]) None)) ["g0"; "g1"]).
    + reflexivity.
    + simpl. lia.
  - apply (proj1 (proj2 (proj2 (make_test_ids_precedence _idval
      (Some (IdsCallable str_value)) [None; Some "mine"] (Some ["a"])
      (Some [VInt 1; VInt 2]) None))) str_value [VInt 1; VInt 2]).
    + reflexivity.
    + reflexivity.
    + simpl. lia.
  - apply (proj2 (proj2 (proj2 (make_test_ids_precedence _idval None
      [None; Some "mine"] (Some ["a"]) (Some [VInt 1; VInt 2]) None))) ["a0"; "a1"]).
    + reflexivity.
    + reflexivity.
    + reflexivity.
    + simpl. lia.
Defined.

(** ** Strings *)

Lemma append_nil (b : string) : "" +:+ b = b.
Proof. reflexivity. Qed.

Lemma append_cons (x : ascii) (a b : string) : String x a +:+ b = String x (a +:+ b).
Proof. reflexivity. Qed.

Lemma append_assoc (a b c : string) : (a +:+ b) +:+ c = a +:+ (b +:+ c).
Proof.
  induction a as [|x a IH]; [done|]. by rewrite !append_cons, IH.
Qed.

Lemma prefix_append (sub s : string) : String.prefix sub (sub +:+ s) = true.
Proof.
  induction sub as [|c sub IH]; [by destruct s|].
  rewrite append_cons. simpl. by destruct (ascii_dec c c).
Qed.

Lemma contains_unfold (sub s : string) :
  contains sub s =
    String.prefix sub s ||
    match s with
    | EmptyString => false
    | String _ s' => contains sub s'
    end.
Proof. by destruct s. Qed.

(** [sub in s] holds of every string that has [sub] between two strings. *)
Lemma contains_append (a sub b : string) : contains sub (a +:+ sub +:+ b) = true.
Proof.
  induction a as [|c a IH].
  - rewrite append_nil, contains_unfold, prefix_append. done.
  - rewrite append_cons, contains_unfold, IH. apply orb_true_r.
Qed.

Lemma split_no_sep (sep : ascii) (s : string) :
  has_char sep s = false -> split sep s = [s].
Proof.
  induction s as [|c s IH]; simpl; [done|].
  intros [Hc Hs]%orb_false_elim. rewrite Hc, IH; done.
Qed.

Lemma split_not_nil (sep : ascii) (s : string) : split sep s <> [].
Proof.
  destruct s as [|c s]; simpl; [done|].
  destruct (Ascii.eqb c sep); [done|]. by destruct (split sep s).
Qed.

Lemma split_append (sep : ascii) (a b : string) :
  has_char sep b = false ->
  split sep (a +:+ String sep b) = split sep a ++ [b].
Proof.
  intros Hb. induction a as [|c a IH].
  - rewrite append_nil. simpl. rewrite Ascii.eqb_refl. by rewrite split_no_sep.
  - rewrite append_cons. simpl. rewrite IH.
    pose proof (split_not_nil sep a).
    destruct (Ascii.eqb c sep); [done|]. by destruct (split sep a).
Qed.

Lemma join_cons (sep x : string) (l : list string) :
  l <> [] -> join sep (x :: l) = x +:+ sep +:+ join sep l.
Proof. by destruct l. Qed.

Lemma join_split (sep : ascii) (s : string) :
  join (String sep EmptyString) (split sep s) = s.
Proof.
  induction s as [|c s IH]; simpl; [done|].
  pose proof (split_not_nil sep s) as Hne.
  destruct (Ascii.eqb c sep) eqn:Hc.
  - apply Ascii.eqb_eq in Hc as ->. rewrite join_cons by done. by rewrite IH.
  - destruct (split sep s) as [|part parts]; [done|].
    destruct parts as [|part' parts].
    + simpl in *. by rewrite IH.
    + rewrite join_cons by done. rewrite join_cons in IH by done.
      by rewrite append_cons, IH.
Qed.

(** ** Auto-discovery of the cases module *)

(** The names that [import_default_cases_module] derives. *)
Lemma default_cases_module_name_auto (f : function) :
  default_cases_module_name f false = Ok (__module__ f +:+ "_cases").
Proof. done. Qed.

Lemma default_cases_module_name_auto2 (f : function) (package basename : string) :
  __module__ f = package +:+ ".test_" +:+ basename ->
  has_char "." basename = false ->
  default_cases_module_name f true = Ok (package +:+ ".cases_" +:+ basename).
Proof.
  intros Hmod Hbase. unfold default_cases_module_name. rewrite Hmod.
  change (package +:+ ".test_" +:+ basename)
    with (package +:+ String "." ("test_" +:+ basename)).
  rewrite split_append by exact Hbase.
  rewrite last_last, removelast_last.
  change (take_string 5 ("test_" +:+ basename)) with "test_".
  change (drop_string 5 ("test_" +:+ basename)) with basename.
  change ("test_" =? "test_")%string with true. cbv iota.
  by rewrite (join_split "." package).
Qed.

(** C6, as the code has it: when the import of the derived cases module
    raises [ImportError], [import_default_cases_module] raises a
    [ValueError] whose message holds the name of the module it tried to
    import, the one name derived for the mode in use, and the [repr] of the
    decorated function; [get_all_cases] raises this error for [AUTO] and
    for [AUTO2]. *)
Theorem auto_discovery_failure_message
    (import_module : string -> option string -> outcome module)
    (f : function) (alt_name : bool) (cases_module_name e : string) :
  default_cases_module_name f alt_name = Ok cases_module_name ->
  import_module cases_module_name None = Raise (ImportError e) ->
  import_default_cases_module import_module f alt_name
    = Raise (ValueError (error_importing f alt_name cases_module_name)) /\
  contains (repr_str cases_module_name) (error_importing f alt_name cases_module_name)
    = true /\
  contains (__repr__ f) (error_importing f alt_name cases_module_name) = true /\
  (forall matches_tag_query cases prefix st,
     get_all_cases import_module matches_tag_query f
       (CasesOf (if alt_name then AUTO2 else AUTO) :: cases) prefix st
     = (Raise (ValueError (error_importing f alt_name cases_module_name)), st)).
Proof.
  intros Hname Himport.
  assert (import_default_cases_module import_module f alt_name
    = Raise (ValueError (error_importing f alt_name cases_module_name))) as Hraise.
  { unfold import_default_cases_module. rewrite Hname. simpl. by rewrite Himport. }
  split; [done|]. split; [|split].
  - unfold error_importing.
    rewrite <- (append_assoc _ (__repr__ f)).
    rewrite <- (append_assoc _ ": unable to import AUTO").
    rewrite <- (append_assoc _ (if alt_name then "2" else "")).
    rewrite <- (append_assoc _ " cases module ").
    apply contains_append.
  - unfold error_importing. apply contains_append.
  - intros matches_tag_query cases prefix st. unfold get_all_cases.
    rewrite bind_M. cbn [for_each_M]. rewrite !bind_M.
    destruct alt_name; rewrite !bind_M; unfold lift; by rewrite Hraise.
Qed.

Lemma auto_discovery_failure_message_witness :
  import_default_cases_module no_module test_foo true
  = Raise (ValueError
      "Error importing test cases module to parametrize function <function test_foo at 0x7f3a5c0d1e50>: unable to import AUTO2 cases module 'pkg.cases_foo'. Maybe you wish to import cases from somewhere else ? In that case please specify `cases=...`.").
Proof.
  apply (proj1 (auto_discovery_failure_message no_module test_foo true "pkg.cases_foo"
           "No module named 'pkg.cases_foo'"
           (default_cases_module_name_auto2 test_foo "pkg" "foo" eq_refl eq_refl)
           eq_refl)).
Defined.

(** C6 as stated fails: the message of a failed auto-discovery holds the one
    name that was tried, not the name of the other naming scheme. *)
Lemma auto_discovery_names_one_module :
  exists msg,
    import_default_cases_module no_module test_foo false = Raise (ValueError msg)
    /\ contains "pkg.test_foo_cases" msg = true
    /\ contains "pkg.cases_foo" msg = false.
Proof. eexists. split; [reflexivity|]. split; reflexivity. Qed.

(** ** Case classes with a constructor *)

(** C9: a class that is taken for a case class and has an [__init__] or a
    [__new__] other than that of [object] gets one warning and gives no
    case, without an exception; and [get_all_cases], given such a class,
    goes on with the other items of [cases]. *)
Theorem class_with_constructor_skipped (case_fun_prefix : string)
    (c : class_info) (members : list (string * option wrapper * pyobj)) (st : state) :
  hasinit c || hasnew c = true ->
  (forall _case_param_factory check_name,
     is_case_class (PyClass c members) check_name = true ->
     extract_cases_from_class case_fun_prefix _case_param_factory check_name
       (PyClass c members) st
     = (Ok [], warned (cannot_collect c) st)) /\
  (forall import_module matches_tag_query parametrization_target cases,
     get_all_cases import_module matches_tag_query parametrization_target
       (CaseCls c members :: cases) case_fun_prefix st
     = get_all_cases import_module matches_tag_query parametrization_target
         cases case_fun_prefix (warned (cannot_collect c) st)).
Proof.
  intros Hctor.
  assert (forall _case_param_factory check_name,
     is_case_class (PyClass c members) check_name = true ->
     extract_cases_from_class case_fun_prefix _case_param_factory check_name
       (PyClass c members) st
     = (Ok [], warned (cannot_collect c) st)) as Hextract.
  { intros factory check_name Hcls. cbn [extract_cases_from_class]. rewrite Hcls.
    unfold cannot_collect, warned. destruct (hasinit c); [done|].
    simpl in Hctor. by rewrite Hctor. }
  split; [done|].
  intros import_module matches_tag_query target cases.
  unfold get_all_cases. rewrite !bind_M. cbn [for_each_M]. rewrite !bind_M.
  by rewrite (Hextract None false eq_refl).
Qed.

Lemma class_with_constructor_skipped_witness :
  let c := {| cls_name := "CasesWithInit"; cls_module := "pkg.test_foo_cases";
              cls_firstlineno := 3; cls___init__ := Some own_slot;
              cls___new__ := Some object_slot |} in
  let st := {| warnings := []; next_object := 0; attributes := ∅ |} in
  extract_cases_from_class "case_" None false (PyClass c []) st
  = (Ok [],
     {| warnings := [CasesCollectionWarning
          "cannot collect cases class 'CasesWithInit' because it has a __init__ constructor"];
        next_object := 0; attributes := ∅ |}).
Proof.
  intros c st.
  apply (proj1 (class_with_constructor_skipped "case_" c [] st eq_refl) None false).
  reflexivity.
Defined.

(** ** The dictionary of cases and its listing in order *)

Lemma StronglySorted_Qclt (l : list Qc) :
  StronglySorted Qcle l -> NoDup l -> StronglySorted Qclt l.
Proof.
  induction 1 as [|k l Hl IH Hk]; intros Hnd; [constructor|].
  apply NoDup_cons in Hnd as [Hnotin Hnd].
  constructor; [by apply IH|].
  rewrite Forall_forall in Hk |- *. intros k' Hin.
  destruct (Qcle_lt_or_eq _ _ (Hk k' Hin)) as [ ? | -> ]; [done|].
  contradiction.
Qed.

Lemma sorted_keys_elem (cases_dct : gmap Qc case_callable) (k : Qc) :
  k ∈ sorted_keys cases_dct <-> is_Some (cases_dct !! k).
Proof.
  unfold sorted_keys. rewrite merge_sort_Permutation, list_elem_of_fmap. split.
  - intros [[k' c] [-> Hin]]. apply elem_of_map_to_list in Hin. by exists c.
  - intros [c Hc]. exists (k, c). split; [done|]. by apply elem_of_map_to_list.
Qed.

Lemma sorted_keys_sorted (cases_dct : gmap Qc case_callable) :
  StronglySorted Qclt (sorted_keys cases_dct).
Proof.
  apply StronglySorted_Qclt.
  - apply (StronglySorted_merge_sort Qcle).
  - unfold sorted_keys. rewrite merge_sort_Permutation. apply NoDup_fst_map_to_list.
Qed.

Lemma omap_lookup_Forall2 (cases_dct : gmap Qc case_callable) (keys : list Qc) :
  (forall k, k ∈ keys -> is_Some (cases_dct !! k)) ->
  Forall2 (fun k c => cases_dct !! k = Some c) keys (omap (fun k => cases_dct !! k) keys).
Proof.
  induction keys as [|k keys IH]; intros Hkeys; simpl; [constructor|].
  destruct (Hkeys k) as [c Hc]; [left|]. rewrite Hc.
  constructor; [done|]. apply IH. intros ? ?. apply Hkeys. by right.
Qed.

Lemma cases_in_order_keys (cases_dct : gmap Qc case_callable) :
  Forall2 (fun k c => cases_dct !! k = Some c)
    (sorted_keys cases_dct) (cases_in_order cases_dct).
Proof. apply omap_lookup_Forall2. intros k. apply sorted_keys_elem. Qed.

(** Every case of the dictionary is listed. *)
Lemma cases_in_order_elem (cases_dct : gmap Qc case_callable) (k : Qc) (c : case_callable) :
  cases_dct !! k = Some c -> c ∈ cases_in_order cases_dct.
Proof.
  intros Hc. assert (k ∈ sorted_keys cases_dct) as Hk by (apply sorted_keys_elem; eauto).
  pose proof (cases_in_order_keys cases_dct) as Hall.
  apply list_elem_of_lookup in Hk as [i Hi].
  destruct (Forall2_lookup_l _ _ _ _ _ Hall Hi) as (c' & Hc' & Hlook).
  rewrite Hc in Hlook. injection Hlook as <-. by eapply list_elem_of_lookup_2.
Qed.

(** ** Declaration orders *)

Lemma line_lt (a b : Z) : (a < b)%Z -> (line a < line b)%Qc.
Proof.
  intros Hab. unfold line, Qclt. cbn [this Q2Qc]. rewrite !Qred_correct. by rewrite <- Zlt_Qlt.
Qed.

Lemma line_le (a b : Z) : (a <= b)%Z -> (line a <= line b)%Qc.
Proof.
  intros Hab. unfold line, Qcle. cbn [this Q2Qc]. rewrite !Qred_correct. by rewrite <- Zle_Qle.
Qed.

Lemma line_plus (a b : Z) : line (a + b) = (line a + line b)%Qc.
Proof.
  unfold line. apply Qc_is_canon. cbn [this Q2Qc Qcplus]. rewrite !Qred_correct. by rewrite inject_Z_plus.
Qed.

Lemma fraction_lt (i j t : nat) :
  i < j -> 0 < t ->
  (line (Z.of_nat i) / line (Z.of_nat t) < line (Z.of_nat j) / line (Z.of_nat t))%Qc.
Proof.
  intros Hij Ht. unfold Qcdiv. apply Qcmult_lt_compat_r.
  - apply Qcinv_pos. apply (line_lt 0). lia.
  - apply line_lt. lia.
Qed.

Lemma gen_line_nb_lt (L : Z) (i j t : nat) :
  i < j -> 0 < t -> (gen_line_nb L i t < gen_line_nb L j t)%Qc.
Proof.
  intros Hij Ht. unfold gen_line_nb. apply Qcplus_lt_mono_l. by apply fraction_lt.
Qed.

Lemma gen_line_nb_inj (L : Z) (i j t : nat) :
  0 < t -> gen_line_nb L i t = gen_line_nb L j t -> i = j.
Proof.
  intros Ht Heq. destruct (Nat.lt_trichotomy i j) as [Hlt|[->|Hlt]]; [|done|].
  - pose proof (gen_line_nb_lt L i j t Hlt Ht) as H. rewrite Heq in H.
    by apply Qclt_not_eq in H.
  - pose proof (gen_line_nb_lt L j i t Hlt Ht) as H. rewrite Heq in H.
    by apply Qclt_not_eq in H.
Qed.

Lemma gen_line_nb_bounds (L : Z) (i t : nat) :
  i < t -> (line L <= gen_line_nb L i t)%Qc /\ (gen_line_nb L i t < line (L + 1))%Qc.
Proof.
  intros Hit. assert (0 < t) as Ht by lia.
  assert (Q2Qc 0 < / line (Z.of_nat t))%Qc as Hinv.
  { apply Qcinv_pos. apply (line_lt 0). lia. }
  unfold gen_line_nb, Qcdiv. split.
  - rewrite <- (Qcplus_0_r (line L)) at 1. apply Qcplus_le_mono_l.
    rewrite <- (Qcmult_0_l (/ line (Z.of_nat t))).
    apply Qcmult_le_mono_pos_r; [done|]. apply (line_le 0). lia.
  - rewrite line_plus. apply Qcplus_lt_mono_l.
    replace (line 1) with (line (Z.of_nat t) * / line (Z.of_nat t))%Qc.
    + apply Qcmult_lt_compat_r; [done|]. apply line_lt. lia.
    + apply Qcmult_inv_r. intros H0.
      pose proof (line_lt 0 (Z.of_nat t) ltac:(lia)) as Hlt.
      rewrite H0 in Hlt. by apply Qclt_not_eq in Hlt.
Qed.

(** The entries that the scan of a nested case class puts in the
    dictionary. *)
Lemma insert_enumerated (key : nat -> Qc) (l : list case_callable) (j : nat)
    (d : gmap Qc case_callable) :
  (forall a b, key a = key b -> a = b) ->
  (forall i c, l !! i = Some c ->
     foldl (fun dct '(_i, _m_item) => <[key _i := _m_item]> dct) d (enumerate_from j l)
       !! key (j + i) = Some c) /\
  (forall k, (forall i, i < length l -> k <> key (j + i)) ->
     foldl (fun dct '(_i, _m_item) => <[key _i := _m_item]> dct) d (enumerate_from j l)
       !! k = d !! k).
Proof.
  intros Hinj. revert j d. induction l as [|x l IH]; intros j d; simpl.
  - split; [done|]. done.
  - destruct (IH (S j) (<[key j := x]> d)) as [IH1 IH2]. split.
    + intros [|i] c Hc; simpl in Hc.
      * injection Hc as ->. rewrite Nat.add_0_r, IH2; [apply lookup_insert_eq|].
        intros i _ Heq. apply Hinj in Heq. lia.
      * replace (j + S i) with (S j + i) by lia. by apply IH1.
    + intros k Hk. rewrite IH2.
      * apply lookup_insert_ne. intros Heq. apply (Hk 0); [lia|].
        by rewrite Nat.add_0_r.
      * intros i Hi. replace (S j + i) with (j + S i) by lia. apply Hk. lia.
Qed.

(** ** Methods of a case class *)

Lemma scan_member_skips (case_fun_prefix : string) _case_param_factory extract_class
    (c : class_info) (cases_dct : gmap Qc case_callable) (m_name : string)
    (in_dict : wrapper) (f : function) (st : state) :
  in_dict <> plain_function ->
  scan_member case_fun_prefix _case_param_factory extract_class (Some c) cases_dct
    (m_name, Some in_dict, PyFunction f) st
  = (Ok cases_dct, st).
Proof.
  intros Hd. unfold scan_member. simpl.
  destruct (String.prefix case_fun_prefix (__name__ f)); [|done].
  by destruct in_dict.
Qed.

Lemma scan_member_binds (case_fun_prefix : string) extract_class
    (c : class_info) (cases_dct : gmap Qc case_callable) (m_name : string)
    (f : function) (st : state) :
  is_case_function (PyFunction f) case_fun_prefix true = true ->
  scan_member case_fun_prefix None extract_class (Some c) cases_dct
    (m_name, Some plain_function, PyFunction f) st
  = (Ok (<[line (co_firstlineno f) := bound_case f c (next_object st)]> cases_dct),
     allocated st).
Proof.
  intros Hf. unfold scan_member. simpl in *. by rewrite Hf.
Qed.

(** C10: in a case class, a function whose name has the prefix of cases
    and whose entry in the dictionary of the class is a [staticmethod] or a
    [classmethod] leaves the dictionary of cases and the state as they are,
    and the class gives the cases it would give without this member; a
    function that is a plain method is put in the dictionary, at its line,
    as the partial application of the function to a new instance of the
    class, with the class as host class and the name, the case information
    and the marks of the function; when it is the last member scanned, this
    partial application is among the cases of the class. *)
Theorem methods_of_case_class (case_fun_prefix : string) (c : class_info)
    (m_name : string) (f : function) (st : state) :
  is_case_function (PyFunction f) case_fun_prefix true = true ->
  (forall in_dict _case_param_factory extract_class cases_dct,
     in_dict = staticmethod \/ in_dict = classmethod ->
     scan_member case_fun_prefix _case_param_factory extract_class (Some c) cases_dct
       (m_name, Some in_dict, PyFunction f) st
     = (Ok cases_dct, st)) /\
  (forall in_dict _case_param_factory check_name before after st0,
     in_dict = staticmethod \/ in_dict = classmethod ->
     extract_cases_from_class case_fun_prefix _case_param_factory check_name
       (PyClass c (before ++ (m_name, Some in_dict, PyFunction f) :: after)) st0
     = extract_cases_from_class case_fun_prefix _case_param_factory check_name
         (PyClass c (before ++ after)) st0) /\
  (forall extract_class cases_dct,
     scan_member case_fun_prefix None extract_class (Some c) cases_dct
       (m_name, Some plain_function, PyFunction f) st
     = (Ok (<[line (co_firstlineno f) := bound_case f c (next_object st)]> cases_dct),
        allocated st)) /\
  (forall check_name before st0 cases_dct,
     is_case_class (PyClass c before) check_name = true ->
     hasinit c = false -> hasnew c = false ->
     for_each_M
       (scan_member case_fun_prefix None
          (extract_cases_from_class case_fun_prefix None true) (Some c))
       before ∅ st0 = (Ok cases_dct, st) ->
     exists cases,
       extract_cases_from_class case_fun_prefix None check_name
         (PyClass c (before ++ [(m_name, Some plain_function, PyFunction f)])) st0
       = (Ok cases, allocated st)
       /\ bound_case f c (next_object st) ∈ cases).
Proof.
  intros Hf. split; [|split; [|split]].
  - intros in_dict factory extract_class cases_dct Hd.
    apply scan_member_skips. by destruct Hd as [-> | ->].
  - intros in_dict factory check_name before after st0 Hd.
    cbn [extract_cases_from_class is_case_class]. destruct (_ || _); [|done].
    destruct (hasinit c); [done|]. destruct (hasnew c); [done|].
    unfold scan_members. rewrite !bind_M, !for_each_M_app, !bind_M.
    destruct (for_each_M _ before ∅ st0) as [[d1|e] st1]; [|done].
    cbn [for_each_M]. rewrite bind_M, scan_member_skips; [done|].
    by destruct Hd as [-> | ->].
  - intros. by apply scan_member_binds.
  - intros check_name before st0 cases_dct Hcls Hinit Hnew Hbefore.
    cbn [extract_cases_from_class]. cbn [is_case_class] in Hcls |- *.
    rewrite Hcls, Hinit, Hnew. unfold scan_members.
    rewrite bind_M, for_each_M_app, bind_M, Hbefore. cbn [for_each_M].
    rewrite bind_M, scan_member_binds by done. eexists. split; [done|].
    eapply cases_in_order_elem. apply lookup_insert_eq.
Qed.

Lemma methods_of_case_class_witness :
  exists cases,
    extract_cases_from_class "case_" None false
      (PyClass CasesFoo
         [("case_one", Some staticmethod, PyFunction (case_function "case_one" 14 []));
          ("case_two", Some plain_function, PyFunction (case_function "case_two" 17 ["self"]))])
      initial_state
    = (Ok cases, allocated initial_state)
    /\ bound_case (case_function "case_two" 17 ["self"]) CasesFoo 0 ∈ cases.
Proof.
  apply (proj2 (proj2 (proj2 (methods_of_case_class "case_" CasesFoo "case_two"
           (case_function "case_two" 17 ["self"]) initial_state eq_refl)))
         false
         [("case_one", Some staticmethod, PyFunction (case_function "case_one" 14 []))]
         initial_state ∅).
  - reflexivity.
  - reflexivity.
  - reflexivity.
  - reflexivity.
Defined.

(** ** The order of the cases *)

Lemma for_each_M_invariant {A S : Type} (body : S -> A -> M S) (I : S -> Prop)
    (xs : list A) (s s' : S) (st st' : state) :
  (forall s x st s' st', x ∈ xs -> I s -> body s x st = (Ok s', st') -> I s') ->
  I s -> for_each_M body xs s st = (Ok s', st') -> I s'.
Proof.
  revert s st. induction xs as [|x xs IH]; intros s st Hbody Hs; simpl.
  - by intros [= <- _].
  - rewrite bind_M. destruct (body s x st) as [[s1|e] st1] eqn:Hx; [|done].
    apply IH; [|eapply Hbody; [left | done..]].
    intros ? ? ? ? ? ?. apply Hbody. by right.
Qed.

Lemma line_lt_inv (a b : Z) : (line a < line b)%Qc -> (a < b)%Z.
Proof.
  intros Hlt. destruct (Z.lt_ge_cases a b) as [|Hle]; [done|].
  apply line_le in Hle. by apply Qcle_not_lt in Hle.
Qed.

Lemma filter_true {A : Type} (l : list A) :
  filter (fun c => (fun _ : A => true) c = true) l = l.
Proof.
  induction l as [|x l IH]; [done|]. rewrite filter_cons.
  destruct (decide _); [by rewrite IH | done].
Qed.

Lemma scan_member_keyed (case_fun_prefix : string) extract_class cls
    (cases_dct cases_dct' : gmap Qc case_callable) m_name in_dict m (st st' : state) :
  is_case_class m true = false ->
  keyed_by_line cases_dct ->
  scan_member case_fun_prefix None extract_class cls cases_dct (m_name, in_dict, m) st
    = (Ok cases_dct', st') ->
  keyed_by_line cases_dct'.
Proof.
  intros Hcls Hkeyed. unfold scan_member. rewrite Hcls.
  destruct (is_case_function m case_fun_prefix true); [|by intros [= <- _]].
  destruct m as [f| |]; try by intros [= <- _].
  assert (forall c, declared_at c = co_firstlineno f ->
            keyed_by_line (<[line (get_code_first_line (PyFunction f)) := c]> cases_dct))
    as Hinsert.
  { intros c Hc k c'. destruct (decide (k = line (co_firstlineno f))) as [->|Hk].
    - simpl. rewrite lookup_insert_eq. intros [= <-]. by rewrite Hc.
    - simpl. rewrite lookup_insert_ne by done. apply Hkeyed. }
  destruct cls as [c|].
  - destruct in_dict as [[| |]|]; rewrite bind_M; simpl.
    + intros [= <- _]. by apply Hinsert.
    + by intros [= <- _].
    + by intros [= <- _].
    + done.
  - rewrite bind_M. simpl. intros [= <- _]. by apply Hinsert.
Qed.

Lemma sorted_by_line (keys : list Qc) (cases : list case_callable) :
  StronglySorted Qclt keys ->
  Forall2 (fun k c => k = line (declared_at c)) keys cases ->
  StronglySorted Z.lt (map declared_at cases).
Proof.
  intros Hsorted Hall. revert Hsorted.
  induction Hall as [|k c keys cases Hk Hall IH]; intros Hsorted; simpl; [constructor|].
  apply StronglySorted_inv in Hsorted as [Hsorted Hlt].
  constructor; [by apply IH|].
  rewrite Forall_forall in Hlt. apply Forall_forall. intros z Hz.
  apply list_elem_of_fmap in Hz as [c' [-> Hc']].
  apply list_elem_of_lookup in Hc' as [i Hi].
  destruct (Forall2_lookup_r _ _ _ _ _ Hall Hi) as (k' & Hk' & ->).
  apply line_lt_inv. rewrite <- Hk. apply Hlt. by eapply list_elem_of_lookup_2.
Qed.

Lemma scan_member_nested (case_fun_prefix : string) _case_param_factory extract_class cls
    (cases_dct : gmap Qc case_callable) m_name in_dict m (st st' : state)
    (cls_cases : list case_callable) :
  is_case_class m true = true ->
  extract_class m st = (Ok cls_cases, st') ->
  exists cases_dct',
    scan_member case_fun_prefix _case_param_factory extract_class cls cases_dct
      (m_name, in_dict, m) st = (Ok cases_dct', st')
    /\ (forall i c, cls_cases !! i = Some c ->
          cases_dct' !! gen_line_nb (get_code_first_line m) i (length cls_cases) = Some c)
    /\ (forall k,
          (forall i, i < length cls_cases ->
             k <> gen_line_nb (get_code_first_line m) i (length cls_cases)) ->
          cases_dct' !! k = cases_dct !! k).
Proof.
  intros Hcls Hextract. unfold scan_member. rewrite Hcls, bind_M, Hextract.
  eexists. split; [reflexivity|].
  destruct cls_cases as [|c0 cls_cases]; [by split|].
  set (nb := length (c0 :: cls_cases)).
  destruct (insert_enumerated (fun i => gen_line_nb (get_code_first_line m) i nb)
              (c0 :: cls_cases) 0 cases_dct) as [H1 H2].
  { intros a b. apply gen_line_nb_inj. subst nb. simpl. lia. }
  split.
  - intros i c Hc. by apply (H1 i c).
  - intros k Hk. apply H2. intros i Hi. by apply Hk.
Qed.

(** C5, as the code has it: the cases of one module or class are listed
    in the ascending order of the keys under which the scan of its members
    put them in the dictionary, whatever the filters, which only remove
    cases; the key of a case function is its line; the key of the case
    number [i] of a nested case class that gives [t] cases is the line of
    the class plus [i / t], and these keys are in the order of the cases,
    from the line of the class on and below the next line; the cases of a
    module or class without nested case class are in the ascending order of
    the lines of their functions. *)
Theorem cases_in_declaration_order (case_fun_prefix : string) :
  (forall _case_param_factory extract_class cls members st cases_dct st',
     for_each_M (scan_member case_fun_prefix _case_param_factory extract_class cls)
       members ∅ st = (Ok cases_dct, st') ->
     scan_members case_fun_prefix _case_param_factory extract_class cls members st
       = (Ok (cases_in_order cases_dct), st') /\
     StronglySorted Qclt (sorted_keys cases_dct) /\
     (forall k, k ∈ sorted_keys cases_dct <-> is_Some (cases_dct !! k)) /\
     Forall2 (fun k c => cases_dct !! k = Some c)
       (sorted_keys cases_dct) (cases_in_order cases_dct)) /\
  (forall extract_class cases_dct m_name in_dict f st,
     is_case_function (PyFunction f) case_fun_prefix true = true ->
     scan_member case_fun_prefix None extract_class None cases_dct
       (m_name, in_dict, PyFunction f) st
     = (Ok (<[line (co_firstlineno f) := CaseFunction f]> cases_dct), st)) /\
  (forall _case_param_factory extract_class cls cases_dct m_name in_dict m st
          cls_cases st',
     is_case_class m true = true ->
     extract_class m st = (Ok cls_cases, st') ->
     exists cases_dct',
       scan_member case_fun_prefix _case_param_factory extract_class cls cases_dct
         (m_name, in_dict, m) st = (Ok cases_dct', st')
       /\ (forall i c, cls_cases !! i = Some c ->
             cases_dct' !! gen_line_nb (get_code_first_line m) i (length cls_cases)
             = Some c)
       /\ (forall k,
             (forall i, i < length cls_cases ->
                k <> gen_line_nb (get_code_first_line m) i (length cls_cases)) ->
             cases_dct' !! k = cases_dct !! k)) /\
  (forall co_firstlineno i j t,
     i < j -> j < t ->
     (line co_firstlineno <= gen_line_nb co_firstlineno i t)%Qc /\
     (gen_line_nb co_firstlineno i t < gen_line_nb co_firstlineno j t)%Qc /\
     (gen_line_nb co_firstlineno j t < line (co_firstlineno + 1))%Qc) /\
  (forall extract_class cls members st cases st',
     no_case_class members = true ->
     scan_members case_fun_prefix None extract_class cls members st = (Ok cases, st') ->
     StronglySorted Z.lt (map declared_at cases)) /\
  (forall import_module matches_tag_query parametrization_target cases st,
     get_all_cases import_module matches_tag_query parametrization_target cases
       case_fun_prefix st
     = match get_all_cases import_module (fun _ => true) parametrization_target cases
               case_fun_prefix st with
       | (Ok all_cases, st') =>
           (Ok (filter (fun c => matches_tag_query c = true) all_cases), st')
       | (Raise e, st') => (Raise e, st')
       end).
Proof.
  split; [|split; [|split; [|split; [|split]]]].
  - intros factory extract_class cls members st cases_dct st' Hloop.
    split; [|split; [|split]].
    + unfold scan_members. by rewrite bind_M, Hloop.
    + apply sorted_keys_sorted.
    + apply sorted_keys_elem.
    + apply cases_in_order_keys.
  - intros extract_class cases_dct m_name in_dict f st Hf.
    unfold scan_member. simpl in *. by rewrite Hf.
  - intros. by eapply scan_member_nested.
  - intros L i j t Hij Hjt. split; [|split].
    + apply gen_line_nb_bounds. lia.
    + apply gen_line_nb_lt; lia.
    + by apply gen_line_nb_bounds.
  - intros extract_class cls members st cases st' Hflat. unfold scan_members.
    rewrite bind_M.
    destruct (for_each_M _ members ∅ st) as [[cases_dct|e] st1] eqn:Hloop; [|done].
    intros [= <- _].
    assert (keyed_by_line cases_dct) as Hkeyed.
    { revert Hloop. apply for_each_M_invariant; [|done].
      intros d [[m_name in_dict] m] st2 d' st2' Hin Hd.
      apply scan_member_keyed; [|done].
      unfold no_case_class in Hflat. rewrite forallb_forall in Hflat.
      apply list_elem_of_In, Hflat in Hin. by apply negb_true_iff in Hin. }
    apply (sorted_by_line (sorted_keys cases_dct)); [apply sorted_keys_sorted|].
    eapply Forall2_impl; [apply cases_in_order_keys|].
    intros k c Hc. simpl in Hc. by apply Hkeyed.
  - intros import_module matches_tag_query target cases st. unfold get_all_cases.
    rewrite !bind_M. destruct (for_each_M _ cases [] st) as [[all_cases|e] st1]; [|done].
    simpl. by rewrite filter_true.
Qed.

Lemma cases_in_declaration_order_witness :
  exists cases,
    extract_cases_from_module "case_" None no_module (inr test_foo_cases) None
      initial_state
    = (Ok cases,
       {| warnings := []; next_object := 2; attributes := ∅ |})
    /\ map declared_at cases = [5; 17; 20; 30]%Z
    /\ StronglySorted Z.lt (map declared_at [CaseFunction (case_function "case_a" 5 []);
                                             CaseFunction (case_function "case_z" 30 [])]).
Proof.
  eexists. split; [vm_compute; reflexivity|]. split; [reflexivity|].
  apply (proj1 (proj2 (proj2 (proj2 (proj2 (cases_in_declaration_order "case_")))))
           (fun _ => mret []) None
           [("case_a", None, PyFunction (case_function "case_a" 5 []));
            ("case_z", None, PyFunction (case_function "case_z" 30 []))]
           initial_state _ initial_state).
  - reflexivity.
  - vm_compute. reflexivity.
Defined.

(** C5 as stated fails: the cases of several items of [cases] are listed
    item after item, and not sorted together by line. *)
Lemma cases_of_several_items_not_sorted :
  exists cases,
    get_all_cases no_module (fun _ => true) test_foo
      [CaseFun (case_function "case_z" 30 []); CaseFun (case_function "case_a" 5 [])]
      "case_" initial_state
    = (Ok cases, initial_state)
    /\ map declared_at cases = [30; 5]%Z
    /\ ~ Sorted Z.le (map declared_at cases).
Proof.
  eexists. split; [reflexivity|]. split; [reflexivity|].
  simpl. intros Hsorted. apply Sorted_inv in Hsorted as [_ Hhd].
  apply HdRel_inv in Hhd. lia.
Qed.

(** ** Cases that require fixtures *)

(** Once [case_to_argvalues] has returned for a case that requires
    fixtures, the fixture is on the host, and a second call for the same
    case raises [NotImplementedError]. *)
Lemma case_to_argvalues_again import_module parametrize (case_fun : case_callable)
    (meta : MiniMetafunc) (st st' : state) (r : argvalues_tuple) :
  MiniMetafunc_init parametrize case_fun = Ok meta ->
  requires_fixtures meta = true ->
  case_to_argvalues import_module parametrize case_fun st = (Ok r, st') ->
  case_to_argvalues import_module parametrize case_fun st'
  = (Raise (NotImplementedError should_check_msg), st').
Proof.
  intros Hmeta Hreq. unfold case_to_argvalues.
  unfold mbind, M_bind, mret, M_ret, lift, raise, getattr, setattr.
  rewrite Hmeta, Hreq. cbn [negb].
  destruct (CaseInfo_get_from case_fun) as [case_info|]; [|done].
  destruct case_fun as [f|p]; [|destruct (host_class p); [|done]].
  all: destruct (import_module _ None); [|done].
  all: destruct (case_id case_info); [|done].
  all: destruct (attributes st !! _) eqn:Hexisting; [done|].
  all: intros [= _ <-]; cbn [attributes]; by rewrite lookup_insert_eq.
Qed.

(** C2: for the case [case_b], which requires the fixture [some_fixture],
    the first call of [case_to_argvalues] puts the fixture [b] on the module
    of the case and returns a reference to it; the second call, for the same
    case and on the same host, does not return this reference: it raises
    [NotImplementedError]. *)
Theorem binding_twice_not_implemented :
  let case_b := case_function "case_b" 8 ["some_fixture"] in
  let st1 :=
    {| warnings := []; next_object := 0;
       attributes := {[ (HostModule "pkg.test_foo_cases", "b") := Fixture "b" case_b ]} |} in
  case_to_argvalues importable no_parametrize (CaseFunction case_b) initial_state
  = (Ok (Tuple [fixture_ref "b"]), st1)
  /\ case_to_argvalues importable no_parametrize (CaseFunction case_b) st1
     = (Raise (NotImplementedError
          "We should check if this is the same or another and generate a new name in that case"),
        st1).
Proof.
  intros case_b st1. split; vm_compute; reflexivity.
Qed.

(** * Further properties of [common_pytest] *)

(** ** [remove_duplicates] *)

Section remove_duplicates_properties.

Context {A : Type} {EqA : EqDecision A} {CountA : Countable A}.

Local Set Warnings "-clear-no-such-hyp".

Lemma remove_duplicates_from_elem (dset : gset A) (lst : list A) (x : A) :
  x ∈ remove_duplicates_from dset lst <-> x ∈ lst /\ x ∉ dset.
Proof.
  revert dset. induction lst as [|item lst IH]; intros dset; simpl.
  - split; [by intros ?%elem_of_nil | by intros [?%elem_of_nil _]].
  - destruct (decide (item ∈ dset)) as [Hin|Hnotin].
    + rewrite IH, elem_of_cons. split; [naive_solver|].
      intros [[->|?] ?]; [done | by split].
    + rewrite !elem_of_cons, IH. split.
      * intros [->|[? ?]]; [by split; [left|] | split; [by right | set_solver]].
      * intros [[->|?] ?]; [by left|].
        destruct (decide (x = item)) as [->|?]; [by left | right; set_solver].
Qed.

Lemma remove_duplicates_from_NoDup (dset : gset A) (lst : list A) :
  NoDup (remove_duplicates_from dset lst).
Proof.
  revert dset. induction lst as [|item lst IH]; intros dset; simpl; [constructor|].
  destruct (decide (item ∈ dset)); [apply IH|].
  constructor; [|apply IH]. rewrite remove_duplicates_from_elem. set_solver.
Qed.

Lemma remove_duplicates_from_sublist (dset : gset A) (lst : list A) :
  remove_duplicates_from dset lst `sublist_of` lst.
Proof.
  revert dset. induction lst as [|item lst IH]; intros dset; simpl; [constructor|].
  destruct (decide (item ∈ dset)); [by apply sublist_cons | by apply sublist_skip].
Qed.

(** An item that has been seen is an item that is filtered out. *)
Lemma remove_duplicates_from_seen (dset : gset A) (lst : list A) (x : A) :
  remove_duplicates_from ({[x]} ∪ dset) lst
  = filter (fun item => item <> x) (remove_duplicates_from dset lst).
Proof.
  revert dset. induction lst as [|item lst IH]; intros dset; simpl; [done|].
  destruct (decide (item ∈ dset)) as [Hin|Hnotin].
  - rewrite decide_True by set_solver. apply IH.
  - destruct (decide (item = x)) as [->|Hne].
    + rewrite decide_True by set_solver.
      rewrite filter_cons_False by (intros Hx; by apply Hx).
      rewrite <- IH. f_equal. set_solver.
    + rewrite decide_False by set_solver. rewrite filter_cons_True by done.
      f_equal. rewrite <- IH. f_equal. set_solver.
Qed.

Lemma remove_duplicates_from_fixes (dset : gset A) (lst : list A) :
  NoDup lst -> (forall x, x ∈ lst -> x ∉ dset) ->
  remove_duplicates_from dset lst = lst.
Proof.
  revert dset. induction lst as [|item lst IH]; intros dset Hnd Hdisj; simpl; [done|].
  apply NoDup_cons in Hnd as [Hnotin Hnd].
  rewrite decide_False by (apply Hdisj; left). f_equal. apply IH; [done|].
  intros x Hx. specialize (Hdisj x ltac:(by right)). set_solver.
Qed.

(** X1: [remove_duplicates] returns a list without duplicates that has
    exactly the items of its argument. *)
Theorem remove_duplicates_NoDup_same_items (lst : list A) :
  NoDup (remove_duplicates lst) /\
  (forall x, x ∈ remove_duplicates lst <-> x ∈ lst).
Proof.
  split; [apply remove_duplicates_from_NoDup|].
  intros x. unfold remove_duplicates. rewrite remove_duplicates_from_elem. set_solver.
Qed.

(** X2: [remove_duplicates] keeps the items in the order of their first
    occurrence: the result is a subsequence of the argument, its head is the
    head of the argument and the rest is what the tail gives without that
    head; a list without duplicates is returned as it is, so that removing
    duplicates twice changes nothing more. *)
Theorem remove_duplicates_first_occurrences (lst : list A) :
  remove_duplicates lst `sublist_of` lst /\
  (forall x l,
     lst = x :: l ->
     remove_duplicates lst = x :: filter (fun item => item <> x) (remove_duplicates l)) /\
  (NoDup lst -> remove_duplicates lst = lst) /\
  remove_duplicates (remove_duplicates lst) = remove_duplicates lst.
Proof.
  split; [apply remove_duplicates_from_sublist|]. split; [|split].
  - intros x l ->. unfold remove_duplicates. simpl.
    rewrite decide_False by set_solver. f_equal.
    by rewrite <- remove_duplicates_from_seen, (right_id_L ∅ (∪)).
  - intros Hnd. apply remove_duplicates_from_fixes; [done | set_solver].
  - apply remove_duplicates_from_fixes; [apply remove_duplicates_from_NoDup | set_solver].
Qed.

End remove_duplicates_properties.

Lemma remove_duplicates_first_occurrences_witness :
  remove_duplicates ["a"; "b"; "a"; "c"; "b"]
  = "a" :: filter (fun item => item <> "a") (remove_duplicates ["b"; "a"; "c"; "b"])
  /\ remove_duplicates ["a"; "b"; "c"] = ["a"; "b"; "c"].
Proof.
  split.
  - apply (proj1 (proj2 (remove_duplicates_first_occurrences ["a"; "b"; "a"; "c"; "b"]))
             "a" ["b"; "a"; "c"; "b"] eq_refl).
  - apply (proj1 (proj2 (proj2 (remove_duplicates_first_occurrences ["a"; "b"; "c"])))).
    by apply (bool_decide_unpack _).
Defined.

(** ** [combine_ids] *)

Lemma split_cons_no_sep (sep : ascii) (a rest : string) :
  has_char sep a = false ->
  split sep (a +:+ String sep rest) = a :: split sep rest.
Proof.
  induction a as [|c a IH]; intros Ha.
  - rewrite append_nil. simpl. by rewrite Ascii.eqb_refl.
  - simpl in Ha. apply orb_false_elim in Ha as [Hc Ha].
    rewrite append_cons. simpl. by rewrite Hc, IH.
Qed.

Lemma split_join (sep : ascii) (l : list string) :
  l <> [] -> Forall (fun s => has_char sep s = false) l ->
  split sep (join (String sep EmptyString) l) = l.
Proof.
  induction l as [|s l IH]; [done|]. intros _ Hl.
  apply Forall_cons in Hl as [Hs Hl]. destruct l as [|s' l].
  - simpl. by apply split_no_sep.
  - rewrite join_cons by done. rewrite append_cons, append_nil.
    rewrite split_cons_no_sep by done. f_equal. by apply IH.
Qed.

(** X3: [combine_ids] gives one id for each tuple of ids, and an id can be
    split at its dashes into the ids of its tuple, when the tuple is not
    empty and none of its ids holds a dash. *)
Theorem combine_ids_split (paramid_tuples : list (list string)) :
  Forall (fun testid => testid <> [] /\ Forall (fun pid => has_char "-" pid = false) testid)
    paramid_tuples ->
  length (combine_ids paramid_tuples) = length paramid_tuples /\
  map (split "-") (combine_ids paramid_tuples) = paramid_tuples.
Proof.
  intros Hall. unfold combine_ids. split; [apply length_map|].
  induction Hall as [|testid tuples [Hne Hdash] _ IH]; simpl; [done|].
  f_equal; [|done]. by apply (split_join "-").
Qed.

Lemma combine_ids_split_witness :
  map (split "-") (combine_ids [["a0"; "b0"]; ["a1"; "b1"]]) = [["a0"; "b0"]; ["a1"; "b1"]].
Proof.
  apply (proj2 (combine_ids_split [["a0"; "b0"]; ["a1"; "b1"]]
                  ltac:(repeat constructor; done))).
Defined.

(** ** [extract_parameterset_info] *)

Lemma for_each_length {A B : Type} (body : list B -> A -> outcome (list B))
    (xs : list A) (acc r : list B) :
  (forall acc x acc', body acc x = Ok acc' -> length acc' = S (length acc)) ->
  for_each body xs acc = Ok r -> length r = length acc + length xs.
Proof.
  intros Hbody. revert acc. induction xs as [|x xs IH]; intros acc; simpl.
  - intros [= <-]. lia.
  - destruct (body acc x) as [acc'|] eqn:Hx; simpl; [|done].
    intros Hr. apply IH in Hr. apply Hbody in Hx. lia.
Qed.

Lemma for_each_is_ok {A S : Type} (body : S -> A -> outcome S) (ok : A -> bool)
    (xs : list A) (s : S) :
  (forall s x, is_ok (body s x) = ok x) ->
  is_ok (for_each body xs s) = forallb ok xs.
Proof.
  intros Hbody. revert s. induction xs as [|x xs IH]; intros s; simpl; [done|].
  rewrite <- (Hbody s x). destruct (body s x); simpl; [apply IH | done].
Qed.

Lemma extract_parameterset_info_body_ok (nbnames : nat) (check_nb : bool)
    pids pmarks pvalues (v : argvalue) acc' :
  extract_parameterset_info_body nbnames check_nb (pids, pmarks, pvalues) v = Ok acc' ->
  exists _pid _pmark _pvalue,
    extract_pset_info_single nbnames v = Ok (_pid, _pmark, _pvalue)
    /\ acc' = (pids ++ [_pid], pmarks ++ [_pmark], pvalues ++ [_pvalue]).
Proof.
  unfold extract_parameterset_info_body.
  destruct (extract_pset_info_single nbnames v) as [[[_pid _pmark] _pvalue]|]; simpl; [|done].
  intros Hacc. exists _pid, _pmark, _pvalue. split; [done|].
  destruct (check_nb && (1 <? nbnames)%nat); [|by injection Hacc].
  destruct (py_len _pvalue) as [n|]; simpl in Hacc; [|done].
  destruct (negb (n =? nbnames)%nat); [done | by injection Hacc].
Qed.

Lemma extract_parameterset_info_loop (nbnames : nat) (check_nb : bool)
    (xs : list argvalue) pids pmarks pvalues pids' pmarks' pvalues' :
  for_each (extract_parameterset_info_body nbnames check_nb) xs (pids, pmarks, pvalues)
    = Ok (pids', pmarks', pvalues') ->
  exists ids ms vs,
    pids' = pids ++ ids /\ pmarks' = pmarks ++ ms /\ pvalues' = pvalues ++ vs /\
    length ids = length xs /\ length ms = length xs /\ length vs = length xs /\
    forall i x, xs !! i = Some x ->
      exists _pid _pmark _pvalue,
        extract_pset_info_single nbnames x = Ok (_pid, _pmark, _pvalue)
        /\ ids !! i = Some _pid /\ ms !! i = Some _pmark /\ vs !! i = Some _pvalue.
Proof.
  revert pids pmarks pvalues. induction xs as [|x xs IH]; intros pids pmarks pvalues.
  - intros [= <- <- <-]. exists [], [], []. rewrite !app_nil_r. done.
  - cbn [for_each].
    destruct (extract_parameterset_info_body _ _ _ x) as [acc'|] eqn:Hx; [|done].
    apply extract_parameterset_info_body_ok in Hx
      as (_pid & _pmark & _pvalue & Hx & ->).
    cbn [mbind outcome_bind]. intros Hr.
    apply IH in Hr as (ids & ms & vs & -> & -> & -> & Hids & Hms & Hvs & Hget).
    exists (_pid :: ids), (_pmark :: ms), (_pvalue :: vs).
    rewrite <- !app_assoc. simpl. repeat split; try done; try lia.
    intros [|i] y Hy; simpl in Hy.
    + injection Hy as <-. by exists _pid, _pmark, _pvalue.
    + by apply Hget.
Qed.

(** X4: the three lists that [extract_parameterset_info] returns have one
    item for each argvalue, and the items at an index are the id, the marks
    and the value that [extract_pset_info_single] gives for the argvalue at
    this index. *)
Theorem extract_parameterset_info_pointwise (argnames : list string)
    (argvalues : list argvalue) (check_nb : bool) pids pmarks pvalues :
  extract_parameterset_info argnames argvalues check_nb = Ok (pids, pmarks, pvalues) ->
  length pids = length argvalues /\
  length pmarks = length argvalues /\
  length pvalues = length argvalues /\
  forall i v, argvalues !! i = Some v ->
    exists _pid _pmark _pvalue,
      extract_pset_info_single (length argnames) v = Ok (_pid, _pmark, _pvalue)
      /\ pids !! i = Some _pid /\ pmarks !! i = Some _pmark
      /\ pvalues !! i = Some _pvalue.
Proof.
  intros Hloop.
  change (for_each (extract_parameterset_info_body (length argnames) check_nb)
            argvalues ([], [], []) = Ok (pids, pmarks, pvalues)) in Hloop.
  apply extract_parameterset_info_loop in Hloop
    as (ids & ms & vs & -> & -> & -> & Hids & Hms & Hvs & Hget).
  done.
Qed.

Lemma extract_parameterset_info_pointwise_witness :
  length [None; Some "two"] = 2 /\
  exists _pid _pmark _pvalue,
    extract_pset_info_single 1 (ParameterSet [VInt 2] [MarkDecorator "skip"] (Some "two"))
    = Ok (_pid, _pmark, _pvalue)
    /\ [None; Some "two"] !! 1 = Some _pid
    /\ [None; Some [MarkDecorator "skip"]] !! 1 = Some _pmark
    /\ [VInt 1; VInt 2] !! 1 = Some _pvalue.
Proof.
  pose proof (extract_parameterset_info_pointwise ["a"]
    [Plain (VInt 1); ParameterSet [VInt 2] [MarkDecorator "skip"] (Some "two")] true
    [None; Some "two"] [None; Some [MarkDecorator "skip"]] [VInt 1; VInt 2] eq_refl)
    as (Hids & _ & _ & Hget).
  split; [exact Hids|]. exact (Hget 1 _ eq_refl).
Defined.

(** X5: when [check_nb] is off, [extract_parameterset_info] returns exactly
    when every argvalue can be decomposed; for a number of names other than
    one it always returns. *)
Theorem extract_parameterset_info_unchecked (argnames : list string)
    (argvalues : list argvalue) :
  is_ok (extract_parameterset_info argnames argvalues false)
  = forallb (fun v => is_ok (extract_pset_info_single (length argnames) v)) argvalues /\
  (length argnames <> 1 ->
   is_ok (extract_parameterset_info argnames argvalues false) = true).
Proof.
  assert (is_ok (extract_parameterset_info argnames argvalues false)
    = forallb (fun v => is_ok (extract_pset_info_single (length argnames) v)) argvalues)
    as Hok.
  { unfold extract_parameterset_info. apply for_each_is_ok.
    intros [[pids pmarks] pvalues] v.
    by destruct (extract_pset_info_single _ v) as [[[? ?] ?]|]. }
  split; [done|]. intros Hnb. rewrite Hok. apply forallb_forall. intros v _.
  unfold extract_pset_info_single. destruct v as [values marks id|v]; [|done].
  apply Nat.eqb_neq in Hnb. by rewrite Hnb.
Qed.

Lemma extract_parameterset_info_unchecked_witness :
  is_ok (extract_parameterset_info ["a"; "b"]
           [ParameterSet [] [] None; Plain (VInt 1)] false) = true.
Proof.
  apply (proj2 (extract_parameterset_info_unchecked ["a"; "b"]
                  [ParameterSet [] [] None; Plain (VInt 1)])).
  simpl. lia.
Defined.

(** ** Ids made from the values *)

Lemma for_each_map {A B : Type} (body : list B -> A -> outcome (list B)) (f : A -> B)
    (xs : list A) (acc : list B) :
  (forall acc x, body acc x = Ok (acc ++ [f x])) ->
  for_each body xs acc = Ok (acc ++ map f xs).
Proof.
  intros Hbody. revert acc. induction xs as [|x xs IH]; intros acc; simpl.
  - by rewrite app_nil_r.
  - rewrite Hbody. simpl. rewrite IH. by rewrite <- app_assoc.
Qed.

Lemma length_enumerate_from {A : Type} (k : nat) (xs : list A) :
  length (enumerate_from k xs) = length xs.
Proof. revert k. induction xs as [|x xs IH]; intros k; simpl; [done | by rewrite IH]. Qed.

Lemma forallb_enumerate_from {A : Type} (p : A -> bool) (k : nat) (xs : list A) :
  forallb (fun '(_, x) => p x) (enumerate_from k xs) = forallb p xs.
Proof. revert k. induction xs as [|x xs IH]; intros k; simpl; [done | by rewrite IH]. Qed.

Lemma py_list_of_sized (v : value) (n : nat) : py_len v = Ok n -> is_ok (py_list v) = true.
Proof. by destruct v. Qed.

Section ids_from_values.

Variable _idval : value -> string -> nat -> string.

Lemma make_test_ids_from_param_values_length param_names param_values ids :
  make_test_ids_from_param_values _idval param_names param_values = Ok ids ->
  exists values, param_values = Some values /\ length ids = length values.
Proof.
  unfold make_test_ids_from_param_values.
  destruct param_names as [param_names|]; [|done].
  destruct (length param_names =? 0)%nat; [done|].
  destruct param_values as [values|]; [|done]. intros Hids. exists values. split; [done|].
  destruct (length param_names =? 1)%nat.
  - apply for_each_length in Hids.
    + rewrite Hids. unfold enumerate. by rewrite length_enumerate_from.
    + intros acc [i v] acc' [= <-]. rewrite length_app. simpl. lia.
  - apply for_each_length in Hids.
    + rewrite Hids. unfold enumerate. by rewrite length_enumerate_from.
    + intros acc [i vv] acc'. destruct (py_len vv) as [n|]; simpl; [|done].
      destruct (negb _); [done|]. destruct (py_list vv); simpl; [|done].
      intros [= <-]. rewrite length_app. simpl. lia.
Qed.

(** X6: for a single name, [make_test_ids_from_param_values] returns, for
    the value at each index, the id that [_idval] gives for the value, the
    name and the index; for several names it returns exactly when every
    value has as many items as there are names; the ids it returns are as
    many as the values; and without any name it raises a [ValueError]. *)
Theorem make_test_ids_from_param_values_spec :
  (forall name values,
     make_test_ids_from_param_values _idval (Some [name]) (Some values)
     = Ok (map (fun '(idx, v) => _idval v name idx) (enumerate values))) /\
  (forall param_names values,
     2 <= length param_names ->
     is_ok (make_test_ids_from_param_values _idval (Some param_names) (Some values))
     = forallb (fun vv => match py_len vv with
                          | Ok n => Nat.eqb n (length param_names)
                          | Raise _ => false
                          end) values) /\
  (forall param_names values ids,
     make_test_ids_from_param_values _idval (Some param_names) (Some values) = Ok ids ->
     length ids = length values) /\
  (forall param_values,
     make_test_ids_from_param_values _idval (Some []) param_values
     = Raise (ValueError "empty list provided")).
Proof.
  split; [|split; [|split]].
  - intros name values. unfold make_test_ids_from_param_values. simpl.
    apply (for_each_map _ (fun '(idx, v) => _idval v name idx)). by intros acc [idx v].
  - intros param_names values Hnb. unfold make_test_ids_from_param_values.
    destruct (length param_names =? 0)%nat eqn:H0; [apply Nat.eqb_eq in H0; lia|].
    destruct (length param_names =? 1)%nat eqn:H1; [apply Nat.eqb_eq in H1; lia|].
    unfold enumerate.
    rewrite <- (forallb_enumerate_from _ 0 values). apply for_each_is_ok.
    intros acc [idx vv]. destruct (py_len vv) as [n|] eqn:Hlen; simpl; [|done].
    destruct (n =? length param_names)%nat; simpl; [|done].
    pose proof (py_list_of_sized vv n Hlen). by destruct (py_list vv).
  - intros param_names values ids Hids.
    apply make_test_ids_from_param_values_length in Hids as (? & [= <-] & Hlen). done.
  - done.
Qed.

(** The loop of [make_test_ids] over [enumerate(id_marks)] returns when
    every id of a mark is at an index of the list of ids. *)
Lemma id_marks_loop_is_ok (k : nat) (id_marks : list (option string))
    (p_ids : list string) :
  is_ok (for_each (fun p_ids '(i, _id) =>
                     match _id with
                     | Some s => setitem p_ids i s
                     | None => Ok p_ids
                     end) (enumerate_from k id_marks) p_ids)
  = forallb (fun '(i, _id) => match _id with
                              | Some _ => (i <? length p_ids)%nat
                              | None => true
                              end) (enumerate_from k id_marks).
Proof.
  revert k p_ids. induction id_marks as [|m ms IH]; intros k p_ids; simpl; [done|].
  destruct m as [s|]; simpl; [|apply IH].
  unfold setitem. destruct (k <? length p_ids)%nat; simpl; [|done].
  rewrite IH. by rewrite length_insert.
Qed.

(** X7: with an explicit list of ids, [make_test_ids] returns exactly when
    every value that carries an id of its own is at an index of the list; it
    then returns as many ids as the list has, whatever the number of values;
    otherwise it raises [IndexError]. *)
Theorem make_test_ids_explicit_list (ids : list string) (id_marks : list (option string))
    (argnames : option (list string)) (argvalues : option (list value))
    (precomputed_ids : option (list string)) :
  is_ok (make_test_ids _idval (Some (IdsList ids)) id_marks argnames argvalues
           precomputed_ids)
  = forallb (fun '(i, _id) => match _id with
                              | Some _ => (i <? length ids)%nat
                              | None => true
                              end) (enumerate id_marks) /\
  (forall p_ids,
     make_test_ids _idval (Some (IdsList ids)) id_marks argnames argvalues precomputed_ids
     = Ok p_ids -> length p_ids = length ids) /\
  (forall e,
     make_test_ids _idval (Some (IdsList ids)) id_marks argnames argvalues precomputed_ids
     = Raise e -> e = IndexError "list assignment index out of range").
Proof.
  unfold make_test_ids, enumerate. simpl. split; [apply id_marks_loop_is_ok|]. split.
  - intros p_ids Hp. by apply id_marks_loop in Hp as [Hlen _].
  - intros e. apply for_each_only_raises. intros p [i [s|]] e'; [|done].
    intros _. unfold setitem. by destruct (i <? length p)%nat; [|intros [= <-]].
Qed.

(** X8: when [analyze_parameter_set] returns, it returns the marks and the
    values of all the argvalues; it returns as many ids as argvalues when the
    ids are made from the values or by a callable, and as many ids as the
    explicit list of ids has otherwise. *)
Theorem analyze_parameter_set_lengths (argnames : list string)
    (argvalues : list argvalue) (ids : option ids_argument) (check_nb : bool)
    p_ids p_marks p_values :
  analyze_parameter_set _idval argnames argvalues ids check_nb
    = Ok (p_ids, p_marks, p_values) ->
  length p_marks = length argvalues /\
  length p_values = length argvalues /\
  length p_ids = match ids with
                 | Some (IdsList l) => length l
                 | _ => length argvalues
                 end.
Proof.
  unfold analyze_parameter_set.
  destruct (extract_parameterset_info argnames argvalues check_nb)
    as [[[custom_pids marks] values]|] eqn:Hinfo; simpl; [|done].
  assert (length custom_pids = length argvalues /\ length marks = length argvalues
          /\ length values = length argvalues) as (Hpids & Hmarks & Hvalues).
  { change (for_each (extract_parameterset_info_body (length argnames) check_nb)
              argvalues ([], [], []) = Ok (custom_pids, marks, values)) in Hinfo.
    apply extract_parameterset_info_loop in Hinfo
      as (ids0 & ms & vs & E1 & E2 & E3 & Hids0 & Hms & Hvs & _).
    by rewrite E1, E2, E3. }
  destruct (make_test_ids _ ids custom_pids _ _ None) as [made|] eqn:Hids; simpl; [|done].
  intros [= <- <- <-]. split; [done|]. split; [done|].
  unfold make_test_ids in Hids.
  destruct ids as [[l|idfn]|].
  - simpl in Hids. by apply id_marks_loop in Hids as [Hlen _].
  - simpl in Hids. apply id_marks_loop in Hids as [Hlen _]. by rewrite Hlen, length_map.
  - destruct (make_test_ids_from_param_values _idval (Some argnames) (Some values))
      as [base|] eqn:Hbase; [|done].
    cbn [mbind outcome_bind] in Hids.
    apply id_marks_loop in Hids as [Hlen _].
    apply make_test_ids_from_param_values_length in Hbase as (? & [= <-] & Hbase).
    by rewrite Hlen, Hbase.
Qed.

End ids_from_values.

Lemma make_test_ids_from_param_values_spec_witness :
  let _idval := fun (_ : value) (argname : string) (idx : nat) => argname +:+ str_nat idx in
  is_ok (make_test_ids_from_param_values _idval (Some ["a"; "b"])
           (Some [VTuple [VInt 1; VInt 2]; VTuple [VInt 3]])) = false
  /\ length ["a0-b0"] = length [VTuple [VInt 1; VInt 2]].
Proof.
  intros _idval. split.
  - rewrite (proj1 (proj2 (make_test_ids_from_param_values_spec _idval)) ["a"; "b"]
               [VTuple [VInt 1; VInt 2]; VTuple [VInt 3]]); [reflexivity | simpl; lia].
  - apply (proj1 (proj2 (proj2 (make_test_ids_from_param_values_spec _idval)))
             ["a"; "b"] [VTuple [VInt 1; VInt 2]] ["a0-b0"]).
    reflexivity.
Defined.

Lemma make_test_ids_explicit_list_witness :
  let _idval := fun (_ : value) (argname : string) (idx : nat) => argname +:+ str_nat idx in
  length ["g0"; "mine"; "g2"] = length ["g0"; "g1"; "g2"]
  /\ IndexError "list assignment index out of range"
     = IndexError "list assignment index out of range".
Proof.
  intros _idval. split.
  - apply (proj1 (proj2 (make_test_ids_explicit_list _idval ["g0"; "g1"; "g2"]
                           [None; Some "mine"] (Some ["a"]) (Some [VInt 1; VInt 2]) None))).
    reflexivity.
  - apply (proj2 (proj2 (make_test_ids_explicit_list _idval ["g0"]
                           [None; Some "mine"] (Some ["a"]) (Some [VInt 1; VInt 2]) None))).
    reflexivity.
Defined.

Lemma analyze_parameter_set_lengths_witness :
  let _idval := fun (_ : value) (argname : string) (idx : nat) => argname +:+ str_nat idx in
  length ["a0"; "two"] = 2.
Proof.
  intros _idval.
  apply (proj2 (proj2 (analyze_parameter_set_lengths _idval ["a"]
    [Plain (VInt 1); ParameterSet [VInt 2] [MarkDecorator "skip"] (Some "two")] None true
    ["a0"; "two"] [None; Some [MarkDecorator "skip"]] [VInt 1; VInt 2] eq_refl))).
Defined.

(** ** The structure of the cartesian product *)

Lemma cart_product_step_entry names0 argnames_lists several sub_product result x :
  cart_product_step (names0 :: argnames_lists) several sub_product result x
  = c ← entry_combination (length names0) x;
    Ok (result ++ if several then map (merge_combination c) sub_product else [c]).
Proof.
  unfold cart_product_step, entry_combination. simpl.
  destruct (extract_pset_info_single _ x) as [[[[?|] x_marks] x_value]|]; simpl; try done.
  match goal with |- context [mbind _ ?r] => destruct r as [x_value_lst|] end; simpl; [|done].
  destruct several; [|done]. do 2 f_equal. apply map_ext. by intros [m p].
Qed.

(** The body of the loop of the product appends to the result. *)
Lemma cart_product_loop_shift argnames_lists several sub_product xs result :
  for_each (cart_product_step argnames_lists several sub_product) xs result
  = r ← for_each (cart_product_step argnames_lists several sub_product) xs [];
    Ok (result ++ r).
Proof.
  revert result. induction xs as [|x xs IH]; intros result; simpl.
  - by rewrite app_nil_r.
  - destruct argnames_lists as [|names0 argnames_lists]; [done|].
    rewrite !cart_product_step_entry.
    destruct (entry_combination _ x) as [c|]; simpl; [|done].
    rewrite IH. rewrite (IH (if several then _ else _)).
    destruct (for_each _ xs []); simpl; [|done]. by rewrite app_assoc.
Qed.

Lemma cart_product_loop_entries names0 argnames_lists several sub_product xs r :
  for_each (cart_product_step (names0 :: argnames_lists) several sub_product) xs [] = Ok r
  <-> exists singles,
        Forall2 (fun x c => entry_combination (length names0) x = Ok c) xs singles
        /\ r = if several then all_combinations singles sub_product else singles.
Proof.
  revert r. induction xs as [|x xs IH]; intros r.
  - simpl. split.
    + intros [= <-]. exists []. split; [constructor | by destruct several].
    + intros (singles & Hall & ->). apply Forall2_nil_inv_l in Hall as ->.
      by destruct several.
  - cbn [for_each]. rewrite cart_product_step_entry.
    destruct (entry_combination _ x) as [c|] eqn:Hc; cbn [mbind outcome_bind].
    + rewrite cart_product_loop_shift.
      destruct (for_each _ xs []) as [r'|e] eqn:Hxs; cbn [mbind outcome_bind].
      * destruct (proj1 (IH r') eq_refl) as (singles & Hall & ->). split.
        -- intros [= <-]. exists (c :: singles). split; [by constructor|].
           by destruct several.
        -- intros (singles' & Hall' & ->).
           apply Forall2_cons_inv_l in Hall' as (c' & singles'' & Hc' & Hall' & ->).
           rewrite Hc in Hc'. injection Hc' as <-.
           assert (singles'' = singles) as ->.
           { clear -Hall Hall'. revert singles'' Hall'.
             induction Hall as [|y d ys ds Hy _ IHall]; intros singles'' Hall'.
             - by apply Forall2_nil_inv_l in Hall'.
             - apply Forall2_cons_inv_l in Hall' as (d' & ds' & Hd' & Hall' & ->).
               rewrite Hy in Hd'. injection Hd' as <-. f_equal. by apply IHall. }
           by destruct several.
      * split; [done|]. intros (singles' & Hall' & _).
        apply Forall2_cons_inv_l in Hall' as (c' & singles'' & _ & Hall' & ->).
        assert (exists r', Ok r' = @Raise (list (list mark * list value)) e) as [? ?];
          [|done].
        eexists. symmetry. apply IH. by exists singles''.
    + split; [done|]. intros (singles' & Hall' & _).
      apply Forall2_cons_inv_l in Hall' as (c' & ? & Hc' & _). by rewrite Hc in Hc'.
Qed.

Lemma all_combinations_app p1 p1' p2 :
  all_combinations (p1 ++ p1') p2 = all_combinations p1 p2 ++ all_combinations p1' p2.
Proof. unfold all_combinations. apply flat_map_app. Qed.

Lemma merge_combination_assoc c1 c2 c3 :
  merge_combination (merge_combination c1 c2) c3
  = merge_combination c1 (merge_combination c2 c3).
Proof. unfold merge_combination. simpl. by rewrite <- !app_assoc. Qed.

Lemma all_combinations_map c p1 p2 :
  all_combinations (map (merge_combination c) p1) p2
  = map (merge_combination c) (all_combinations p1 p2).
Proof.
  unfold all_combinations. induction p1 as [|c1 p1 IH]; simpl; [done|].
  rewrite map_app, IH. f_equal. rewrite map_map. apply map_ext.
  intros c2. apply merge_combination_assoc.
Qed.

Lemma all_combinations_assoc p1 p2 p3 :
  all_combinations (all_combinations p1 p2) p3
  = all_combinations p1 (all_combinations p2 p3).
Proof.
  induction p1 as [|c p1 IH]; [done|].
  change (all_combinations (c :: p1) p2)
    with (map (merge_combination c) p2 ++ all_combinations p1 p2).
  rewrite all_combinations_app, IH, all_combinations_map. done.
Qed.

(** X9: the product of the dimensions of two lists put end to end holds
    every combination of the product of the first list merged with every
    combination of the product of the second, the first varying slowest; so
    the marks and the values of a combination come in the order of the
    dimensions, however the dimensions are grouped. *)
Theorem cart_product_of_concatenation (argnames_lists1 argnames_lists2 : list (list string))
    (argvalues1 argvalues2 : list (list argvalue)) p1 p2 :
  length argnames_lists1 = length argvalues1 ->
  _cart_product_pytest argnames_lists1 argvalues1 = Ok p1 ->
  _cart_product_pytest argnames_lists2 argvalues2 = Ok p2 ->
  _cart_product_pytest (argnames_lists1 ++ argnames_lists2) (argvalues1 ++ argvalues2)
  = Ok (all_combinations p1 p2).
Proof.
  intros Hlen Hp1 Hp2.
  assert (argvalues2 <> []) as Hne2 by (by intros ->).
  revert argnames_lists1 p1 Hlen Hp1.
  induction argvalues1 as [|xs0 argvalues1 IH]; intros argnames_lists1 p1 Hlen Hp1; [done|].
  destruct argnames_lists1 as [|names0 argnames_lists1]; [done|].
  injection Hlen as Hlen. cbn [_cart_product_pytest tail app] in *.
  destruct argvalues1 as [|xs1 argvalues1].
  - destruct argnames_lists1; [|done]. cbn [app] in *.
    destruct argvalues2 as [|ys0 argvalues2]; [done|].
    rewrite Hp2. cbn [mbind outcome_bind] in *.
    apply cart_product_loop_entries in Hp1 as (singles & Hall & ->).
    apply cart_product_loop_entries. by exists singles.
  - destruct (_cart_product_pytest argnames_lists1 (xs1 :: argvalues1)) as [p1'|] eqn:Hp1';
      [|done].
    cbn [mbind outcome_bind] in Hp1.
    rewrite (IH argnames_lists1 p1' Hlen Hp1'). cbn [app mbind outcome_bind].
    apply cart_product_loop_entries in Hp1 as (singles & Hall & ->).
    apply cart_product_loop_entries. exists singles. split; [done|].
    by rewrite all_combinations_assoc.
Qed.

Lemma cart_product_of_concatenation_witness :
  _cart_product_pytest [["a"]; ["b"]; ["c"]]
    [[Plain (VInt 1); ParameterSet [VInt 2] [MarkDecorator "m"] None];
     [Plain (VInt 3)]; [ParameterSet [VInt 4] [MarkDecorator "n"] None; Plain (VInt 5)]]
  = Ok (all_combinations
          [([], [VInt 1; VInt 3]); ([MarkDecorator "m"], [VInt 2; VInt 3])]
          [([MarkDecorator "n"], [VInt 4]); ([], [VInt 5])]).
Proof.
  apply (cart_product_of_concatenation [["a"]; ["b"]] [["c"]]
           [[Plain (VInt 1); ParameterSet [VInt 2] [MarkDecorator "m"] None];
            [Plain (VInt 3)]]
           [[ParameterSet [VInt 4] [MarkDecorator "n"] None; Plain (VInt 5)]]).
  - reflexivity.
  - reflexivity.
  - reflexivity.
Defined.

(** X10: the product distributes over the entries of the first dimension:
    with the entries of two lists put end to end in the first dimension, it
    is the product for the first list followed by the product for the
    second, and it raises what the first of them to raise raises. *)
Theorem cart_product_of_entries (argnames_lists : list (list string))
    (xs ys : list argvalue) (rest : list (list argvalue)) :
  _cart_product_pytest argnames_lists ((xs ++ ys) :: rest)
  = p ← _cart_product_pytest argnames_lists (xs :: rest);
    q ← _cart_product_pytest argnames_lists (ys :: rest);
    Ok (p ++ q).
Proof.
  cbn [_cart_product_pytest].
  match goal with |- context [mbind _ ?r] => destruct r as [sub_product|] end; [|done].
  cbn [mbind outcome_bind]. rewrite for_each_app.
  destruct (for_each _ xs []) as [p|]; [|done]. cbn [mbind outcome_bind].
  apply cart_product_loop_shift.
Qed.

Lemma py_list_length (v : value) (l : list value) :
  py_list v = Ok l -> py_len v = Ok (length l).
Proof.
  destruct v; simpl; try done; intros [= <-]; try done.
  rewrite length_map. f_equal. induction s as [|c s IH]; simpl; [done | by rewrite IH].
Qed.

Lemma entry_combination_arity (nb_names : nat) (x : argvalue) c :
  0 < nb_names -> entry_has_arity nb_names x = true ->
  entry_combination nb_names x = Ok c -> length (snd c) = nb_names.
Proof.
  unfold entry_has_arity, entry_combination. intros Hnb.
  destruct (extract_pset_info_single nb_names x) as [[[[?|] x_marks] x_value]|];
    simpl; try done.
  destruct (1 <? nb_names)%nat eqn:Hseveral.
  - destruct (is_lazy_value x_value) eqn:Hlazy; simpl.
    + destruct x_value; try done. simpl. intros _ [= <-]. simpl.
      by rewrite length_map, length_seq.
    + destruct (py_list x_value) as [l|] eqn:Hl; simpl; [|done].
      rewrite (py_list_length _ _ Hl). intros Hn%Nat.eqb_eq [= <-]. done.
  - intros _ [= <-]. simpl. apply Nat.ltb_ge in Hseveral. lia.
Qed.

Lemma all_combinations_elem c p1 p2 :
  c ∈ all_combinations p1 p2 <->
  exists c1 c2, c1 ∈ p1 /\ c2 ∈ p2 /\ c = merge_combination c1 c2.
Proof.
  unfold all_combinations. rewrite list_elem_of_In, in_flat_map. split.
  - intros (c1 & Hc1 & Hc). apply in_map_iff in Hc as (c2 & <- & Hc2).
    exists c1, c2. by rewrite !list_elem_of_In.
  - intros (c1 & c2 & Hc1 & Hc2 & ->). exists c1. rewrite <- list_elem_of_In.
    split; [done|]. apply in_map. by apply list_elem_of_In.
Qed.

(** X11: when every dimension has a name and every entry of a dimension
    of several names has as many items as the dimension has names, every
    combination of the product has one value for each name of the
    dimensions. *)
Theorem cart_product_one_value_per_name (dimensions : list dimension) product :
  forallb dimension_has_arity dimensions = true ->
  product_of_dimensions dimensions = Ok product ->
  forall c, c ∈ product -> length (snd c) = length (concat (map fst dimensions)).
Proof.
  unfold product_of_dimensions. revert product.
  induction dimensions as [|[names0 xs0] rest IH]; intros product; [done|].
  cbn [forallb]. intros [Hd Hrest]%andb_prop.
  unfold dimension_has_arity in Hd. simpl in Hd. apply andb_prop in Hd as [Hnb H0].
  rewrite forallb_forall in H0. apply Nat.ltb_lt in Hnb.
  cbn [map fst snd concat _cart_product_pytest tail]. rewrite length_app.
  assert (forall singles,
    Forall2 (fun x c => entry_combination (length names0) x = Ok c) xs0 singles ->
    forall c, c ∈ singles -> length (snd c) = length names0) as Hsingles.
  { intros singles Hall c Hc. apply list_elem_of_lookup in Hc as [i Hi].
    destruct (Forall2_lookup_r _ _ _ _ _ Hall Hi) as (x & Hx & Hxc).
    eapply entry_combination_arity; [done| |done].
    apply H0. apply list_elem_of_In. by eapply list_elem_of_lookup_2. }
  destruct rest as [|d1 rest].
  - cbn [mbind outcome_bind map concat length]. rewrite Nat.add_0_r.
    intros (singles & Hall & ->)%cart_product_loop_entries. by apply Hsingles.
  - cbn [map] in *.
    destruct (_cart_product_pytest _ (snd d1 :: _)) as [sub_product|]; [|done].
    cbn [mbind outcome_bind].
    intros (singles & Hall & ->)%cart_product_loop_entries c
           (c1 & c2 & Hc1 & Hc2 & ->)%all_combinations_elem.
    simpl. rewrite length_app. f_equal; [by eapply Hsingles|].
    by apply (IH sub_product).
Qed.

Lemma cart_product_one_value_per_name_witness :
  length (snd (@nil mark, [VInt 1; VLazyItem "case_x" 0; VLazyItem "case_x" 1])) = 3.
Proof.
  apply (cart_product_one_value_per_name
           [(["a"], [Plain (VInt 1); ParameterSet [VInt 2] [MarkDecorator "skip"] None]);
            (["b"; "c"], [Plain (VTuple [VInt 3; VInt 4]); Plain (VLazy "case_x")])]
           [([], [VInt 1; VInt 3; VInt 4]);
            ([], [VInt 1; VLazyItem "case_x" 0; VLazyItem "case_x" 1]);
            ([MarkDecorator "skip"], [VInt 2; VInt 3; VInt 4]);
            ([MarkDecorator "skip"], [VInt 2; VLazyItem "case_x" 0; VLazyItem "case_x" 1])]).
  - reflexivity.
  - reflexivity.
  - apply list_elem_of_further, list_elem_of_here.
Defined.

(** ** [cart_product_pytest] *)

Section cart_product_pytest_properties.

Variable get_param_argnames_as_list : string -> list string.
Variable make_marked_parameter_value : list value -> list mark -> argvalue.

(** X12: [cart_product_pytest] returns when the product of the lists of
    names and of the entries does, and then returns the names of all the
    dimensions, in their order, with as many argvalues as the product of the
    numbers of entries of the dimensions; an argvalue made of a combination
    without marks is the tuple of the values of the combination. *)
Theorem cart_product_pytest_spec (argnames : list string)
    (argvalues : list (list argvalue)) :
  let argnames_lists :=
    map (fun _argnames =>
           if (0 <? String.length _argnames)%nat then get_param_argnames_as_list _argnames
           else []) argnames in
  is_ok (cart_product_pytest get_param_argnames_as_list make_marked_parameter_value
           argnames argvalues)
  = is_ok (_cart_product_pytest argnames_lists argvalues) /\
  (forall argnames_list argvalues_prod,
     cart_product_pytest get_param_argnames_as_list make_marked_parameter_value
       argnames argvalues = Ok (argnames_list, argvalues_prod) ->
     argnames_list = concat argnames_lists /\
     length argvalues_prod = product_size argvalues /\
     exists product,
       _cart_product_pytest argnames_lists argvalues = Ok product /\
       forall i values,
         product !! i = Some ([], values) ->
         argvalues_prod !! i = Some (Plain (VTuple values))).
Proof.
  intros argnames_lists. unfold cart_product_pytest. fold argnames_lists.
  destruct (_cart_product_pytest argnames_lists argvalues) as [product|] eqn:Hproduct;
    simpl; [|done].
  split; [done|]. intros argnames_list argvalues_prod [= <- <-].
  split; [done|]. split.
  - rewrite length_map. by eapply _cart_product_pytest_length.
  - exists product. split; [done|]. intros i values Hi.
    change (map ?f product) with (f <$> product). by rewrite list_lookup_fmap, Hi.
Qed.

End cart_product_pytest_properties.

Lemma cart_product_pytest_spec_witness :
  let get_param_argnames_as_list := fun s : string => split "," s in
  let make_marked_parameter_value :=
    fun (values : list value) (marks : list mark) => ParameterSet values marks None in
  length [Plain (VTuple [VInt 1; VInt 3; VInt 4]);
          ParameterSet [VInt 2; VInt 3; VInt 4] [MarkDecorator "skip"] None] = 2.
Proof.
  intros get_param_argnames_as_list make_marked_parameter_value.
  apply (proj2 (cart_product_pytest_spec get_param_argnames_as_list
                  make_marked_parameter_value ["a"; "b,c"]
                  [[Plain (VInt 1); ParameterSet [VInt 2] [MarkDecorator "skip"] None];
                   [Plain (VTuple [VInt 3; VInt 4])]])
           ["a"; "b"; "c"]).
  reflexivity.
Defined.

(** * Further properties of [case_parametrizer_new] *)

(** ** The listing of the dictionary of cases *)

(** X13: the list made of the dictionary of cases holds exactly the cases
    of the dictionary, one for each key. *)
Theorem cases_in_order_lists_dictionary (cases_dct : gmap Qc case_callable) :
  (forall c, c ∈ cases_in_order cases_dct <-> exists k, cases_dct !! k = Some c) /\
  length (cases_in_order cases_dct) = size cases_dct.
Proof.
  pose proof (cases_in_order_keys cases_dct) as Hall. split.
  - intros c. split; [|intros [k Hk]; by eapply cases_in_order_elem].
    intros Hc. apply list_elem_of_lookup in Hc as [i Hi].
    destruct (Forall2_lookup_r _ _ _ _ _ Hall Hi) as (k & _ & Hk). by exists k.
  - rewrite <- (Forall2_length _ _ _ Hall). unfold sorted_keys.
    rewrite merge_sort_Permutation, length_fmap. apply length_map_to_list.
Qed.

(** ** [get_all_cases] on several items *)

Lemma for_each_M_shift {A B : Type} (body : list B -> A -> M (list B)) (xs : list A)
    (acc : list B) (st : state) :
  (forall acc x st,
     body acc x st = match body [] x st with
                     | (Ok r, st') => (Ok (acc ++ r), st')
                     | (Raise e, st') => (Raise e, st')
                     end) ->
  for_each_M body xs acc st
  = match for_each_M body xs [] st with
    | (Ok r, st') => (Ok (acc ++ r), st')
    | (Raise e, st') => (Raise e, st')
    end.
Proof.
  intros Hbody. revert acc st. induction xs as [|x xs IH]; intros acc st; simpl.
  - by rewrite app_nil_r.
  - rewrite !bind_M, (Hbody acc x st).
    destruct (body [] x st) as [[r|e] st1]; [|done].
    rewrite IH, (IH ([] ++ r)). simpl.
    destruct (for_each_M body xs [] st1) as [[r'|e] st2]; [|done].
    by rewrite app_assoc.
Qed.

(** X14: [get_all_cases] takes the items of [cases] one after the other:
    for the items of two lists put end to end, it gives the cases of the
    first list followed by the cases of the second, collected in the state
    that the first collection leaves, and it raises what the first of them
    to raise raises. *)
Theorem get_all_cases_of_concatenation
    (import_module : string -> option string -> outcome module)
    (matches_tag_query : case_callable -> bool) (parametrization_target : function)
    (cases1 cases2 : list cases_item) (prefix : string) (st : state) :
  get_all_cases import_module matches_tag_query parametrization_target
    (cases1 ++ cases2) prefix st
  = match get_all_cases import_module matches_tag_query parametrization_target
            cases1 prefix st with
    | (Ok cases_funs1, st1) =>
        match get_all_cases import_module matches_tag_query parametrization_target
                cases2 prefix st1 with
        | (Ok cases_funs2, st2) => (Ok (cases_funs1 ++ cases_funs2), st2)
        | (Raise e, st2) => (Raise e, st2)
        end
    | (Raise e, st1) => (Raise e, st1)
    end.
Proof.
  unfold get_all_cases. rewrite !bind_M, for_each_M_app, bind_M.
  destruct (for_each_M _ cases1 [] st) as [[r1|e] st1]; [|done].
  cbn [mret M_ret]. rewrite bind_M, for_each_M_shift.
  - destruct (for_each_M _ cases2 [] st1) as [[r2|e] st2]; [|done].
    by rewrite filter_app.
  - clear. intros acc c st. destruct c as [f|c members|m].
    + by destruct (is_case_function _ _ _).
    + rewrite !bind_M. by destruct (extract_cases_from_class _ _ _ _ st) as [[?|?] ?].
    + rewrite !bind_M.
      match goal with |- context [match ?r st with _ => _ end] =>
        destruct (r st) as [[?|?] ?] end; [|done].
      rewrite !bind_M.
      by destruct (extract_cases_from_module _ _ _ _ _ _) as [[?|?] ?].
Qed.

(** ** Members that a case class inherits *)

(** X15: in a case class, a function whose name has the prefix of cases
    and that is not in the dictionary of the class, being inherited, makes
    the extraction of the cases of the class raise [KeyError] with the name
    of the member, once the members before it have been scanned. *)
Theorem inherited_case_raises_KeyError (case_fun_prefix : string) _case_param_factory
    (check_name : bool) (c : class_info) (m_name : string) (f : function)
    (before after : list (string * option wrapper * pyobj))
    (st st1 : state) (cases_dct : gmap Qc case_callable) :
  is_case_class (PyClass c before) check_name = true ->
  hasinit c = false -> hasnew c = false ->
  is_case_function (PyFunction f) case_fun_prefix true = true ->
  for_each_M
    (scan_member case_fun_prefix _case_param_factory
       (extract_cases_from_class case_fun_prefix _case_param_factory true) (Some c))
    before ∅ st = (Ok cases_dct, st1) ->
  extract_cases_from_class case_fun_prefix _case_param_factory check_name
    (PyClass c (before ++ (m_name, None, PyFunction f) :: after)) st
  = (Raise (KeyError m_name), st1).
Proof.
  intros Hcls Hinit Hnew Hf Hbefore. cbn [extract_cases_from_class].
  cbn [is_case_class] in Hcls |- *. rewrite Hcls, Hinit, Hnew. unfold scan_members.
  rewrite bind_M, for_each_M_app, bind_M, Hbefore. cbn [for_each_M].
  rewrite bind_M. unfold scan_member. simpl in *. by rewrite Hf.
Qed.

Lemma inherited_case_raises_KeyError_witness :
  extract_cases_from_class "case_" None false
    (PyClass CasesFoo
       [("case_two", Some plain_function, PyFunction (case_function "case_two" 17 ["self"]));
        ("case_base", None, PyFunction (case_function "case_base" 3 ["self"]))])
    initial_state
  = (Raise (KeyError "case_base"), allocated initial_state).
Proof.
  apply (inherited_case_raises_KeyError "case_" None false CasesFoo "case_base"
           (case_function "case_base" 3 ["self"])
           [("case_two", Some plain_function,
             PyFunction (case_function "case_two" 17 ["self"]))] []
           initial_state (allocated initial_state)
           {[ line 17 := bound_case (case_function "case_two" 17 ["self"]) CasesFoo 0 ]}).
  - reflexivity.
  - reflexivity.
  - reflexivity.
  - reflexivity.
  - vm_compute. reflexivity.
Defined.

(** ** The cases of a module without case class *)

Lemma cases_in_order_elem_inv (cases_dct : gmap Qc case_callable) (c : case_callable) :
  c ∈ cases_in_order cases_dct -> exists k, cases_dct !! k = Some c.
Proof.
  intros Hc. apply list_elem_of_lookup in Hc as [i Hi].
  destruct (Forall2_lookup_r _ _ _ _ _ (cases_in_order_keys cases_dct) Hi) as (k & _ & Hk).
  by exists k.
Qed.

Lemma line_inj (a b : Z) : line a = line b -> a = b.
Proof.
  intros Heq. destruct (Z.lt_trichotomy a b) as [Hlt|[->|Hlt]]; [|done|].
  - apply line_lt in Hlt. rewrite Heq in Hlt. by apply Qclt_not_eq in Hlt.
  - apply line_lt in Hlt. rewrite Heq in Hlt. by apply Qclt_not_eq in Hlt.
Qed.

Lemma scan_member_of_module (case_fun_prefix : string) extract_class
    (cases_dct : gmap Qc case_callable) m_name in_dict m (st : state) :
  is_case_class m true = false ->
  scan_member case_fun_prefix None extract_class None cases_dct (m_name, in_dict, m) st
  = (Ok match m with
        | PyFunction f =>
            if String.prefix case_fun_prefix (__name__ f) then
              <[line (co_firstlineno f) := CaseFunction f]> cases_dct
            else cases_dct
        | _ => cases_dct
        end, st).
Proof.
  intros Hcls. unfold scan_member. rewrite Hcls. destruct m as [f| |]; simpl; [|done..].
  by destruct (String.prefix _ _).
Qed.

Lemma scan_module_members (case_fun_prefix : string) extract_class
    (members : list (string * option wrapper * pyobj)) (cases_dct : gmap Qc case_callable)
    (st : state) :
  no_case_class members = true ->
  exists cases_dct',
    for_each_M (scan_member case_fun_prefix None extract_class None) members cases_dct st
    = (Ok cases_dct', st)
    /\ (forall k c, cases_dct' !! k = Some c ->
          cases_dct !! k = Some c \/
          exists m_name in_dict f,
            c = CaseFunction f /\ (m_name, in_dict, PyFunction f) ∈ members
            /\ String.prefix case_fun_prefix (__name__ f) = true
            /\ k = line (co_firstlineno f))
    /\ (forall k, is_Some (cases_dct !! k) -> is_Some (cases_dct' !! k))
    /\ (forall m_name in_dict f,
          (m_name, in_dict, PyFunction f) ∈ members ->
          String.prefix case_fun_prefix (__name__ f) = true ->
          is_Some (cases_dct' !! line (co_firstlineno f))).
Proof.
  revert cases_dct. induction members as [|[[m_name in_dict] m] members IH];
    intros cases_dct Hflat.
  - exists cases_dct. split; [done|]. split; [by left|]. split; [done|].
    by intros ? ? ? ?%elem_of_nil.
  - simpl in Hflat. apply andb_prop in Hflat as [Hm Hflat]. apply negb_true_iff in Hm.
    cbn [for_each_M]. rewrite bind_M, scan_member_of_module by done.
    destruct (IH (match m with
                  | PyFunction f =>
                      if String.prefix case_fun_prefix (__name__ f) then
                        <[line (co_firstlineno f) := CaseFunction f]> cases_dct
                      else cases_dct
                  | _ => cases_dct
                  end) Hflat) as (d' & Hloop & Hsound & Hkeep & Hcomplete).
    exists d'. split; [done|]. split; [|split].
    + intros k c Hc. destruct (Hsound k c Hc) as [Hold|(n & w & f & ? & ? & ? & ?)].
      * destruct m as [f| |]; [|by left..].
        destruct (String.prefix case_fun_prefix (__name__ f)) eqn:Hf; [|by left].
        destruct (decide (k = line (co_firstlineno f))) as [->|Hk].
        -- rewrite lookup_insert_eq in Hold. injection Hold as <-.
           right. exists m_name, in_dict, f. repeat split; try done. left.
        -- rewrite lookup_insert_ne in Hold by done. by left.
      * right. exists n, w, f. repeat split; try done. by right.
    + intros k Hk. apply Hkeep. destruct m as [f| |]; [|done..].
      destruct (String.prefix _ _); [|done].
      destruct (decide (line (co_firstlineno f) = k)) as [<-|?].
      * rewrite lookup_insert_eq. eauto.
      * by rewrite lookup_insert_ne.
    + intros n w f Hin Hf. apply elem_of_cons in Hin as [[= <- <- <-]|Hin].
      * apply Hkeep. rewrite Hf, lookup_insert_eq. eauto.
      * by eapply Hcomplete.
Qed.

(** X16: the extraction of the cases of a module without case class
    always returns and leaves the state as it is; the cases it returns are
    functions of the module whose module is the module itself and whose name
    has the prefix of cases, so that no imported function is among them; and
    for each such function of the module there is a case at its line. *)
Theorem cases_of_module_without_case_class (case_fun_prefix : string)
    (import_module : string -> option string -> outcome module) (module : module)
    (package_name : option string) (st : state) :
  module_without_case_class module = true ->
  exists cases,
    extract_cases_from_module case_fun_prefix None import_module (inr module)
      package_name st = (Ok cases, st)
    /\ (forall c, c ∈ cases ->
          exists m_name f,
            c = CaseFunction f /\ (m_name, PyFunction f) ∈ mod_members module
            /\ __module__ f = mod_name module
            /\ String.prefix case_fun_prefix (__name__ f) = true)
    /\ (forall m_name f,
          (m_name, PyFunction f) ∈ mod_members module ->
          __module__ f = mod_name module ->
          String.prefix case_fun_prefix (__name__ f) = true ->
          exists c, c ∈ cases /\ declared_at c = co_firstlineno f).
Proof.
  intros Hflat. unfold extract_cases_from_module, _extract_cases_from_module_or_class,
    scan_members.
  rewrite !bind_M. cbn [mret M_ret]. rewrite bind_M.
  set (members := map (fun '(m_name, m) => (m_name, @None wrapper, m))
                      (filter (fun '(_, m) => _of_interest module m = true)
                              (mod_members module))).
  assert (forall m_name in_dict m,
    (m_name, in_dict, m) ∈ members <->
    in_dict = None /\ (m_name, m) ∈ mod_members module /\ _of_interest module m = true)
    as Hmembers.
  { intros m_name in_dict m. unfold members.
    change (map ?f ?l) with (f <$> l). rewrite list_elem_of_fmap. split.
    - intros ([n m'] & [= -> -> ->] & Hin). apply list_elem_of_filter in Hin as [? ?]. done.
    - intros (-> & Hin & Hint). exists (m_name, m). split; [done|].
      by apply list_elem_of_filter. }
  assert (no_case_class members = true) as Hflat'.
  { unfold no_case_class. apply forallb_forall. intros [[m_name in_dict] m] Hin.
    apply list_elem_of_In, Hmembers in Hin as (_ & Hin & _).
    unfold module_without_case_class in Hflat. rewrite forallb_forall in Hflat.
    apply list_elem_of_In in Hin. by apply (Hflat (m_name, m)). }
  destruct (scan_module_members case_fun_prefix
              (extract_cases_from_class case_fun_prefix None true) members ∅ st Hflat')
    as (cases_dct & Hloop & Hsound & _ & Hcomplete).
  rewrite Hloop. eexists. split; [done|]. split.
  - intros c [k Hk]%cases_in_order_elem_inv.
    destruct (Hsound k c Hk) as [Hempty|(n & w & f & -> & Hin & Hf & _)]; [done|].
    apply Hmembers in Hin as (_ & Hin & Hint). exists n, f. repeat split; try done.
    unfold _of_interest in Hint. simpl in Hint. by apply String.eqb_eq in Hint.
  - intros m_name f Hin Hmod Hf.
    destruct (Hcomplete m_name None f) as [c Hc]; [|done|].
    { apply Hmembers. repeat split; try done. unfold _of_interest. simpl.
      by apply String.eqb_eq. }
    exists c. split; [by eapply cases_in_order_elem|].
    destruct (Hsound _ c Hc) as [Hempty|(n & w & f' & -> & _ & _ & Hline)]; [done|].
    simpl. symmetry. by apply line_inj.
Qed.

Lemma cases_of_module_without_case_class_witness :
  let module :=
    {| mod_name := "pkg.test_foo_cases";
       mod_members :=
         [("case_a", PyFunction (case_function "case_a" 5 []));
          ("case_imported",
           PyFunction {| __name__ := "case_imported"; __module__ := "pkg.other_cases";
                         __repr__ := "<function case_imported at 0x7f3a5c0d3ee0>";
                         co_firstlineno := 9; _pytestcase := None; pytestmark := [];
                         parametrize_marks := []; funcargnames := [] |});
          ("helper", PyFunction (case_function "helper" 20 []))] |} in
  exists cases,
    extract_cases_from_module "case_" None no_module (inr module) None initial_state
    = (Ok cases, initial_state)
    /\ exists c, c ∈ cases /\ declared_at c = 5%Z.
Proof.
  intros module.
  destruct (cases_of_module_without_case_class "case_" no_module module None
              initial_state eq_refl) as (cases & Hcases & _ & Hcomplete).
  exists cases. split; [done|].
  apply (Hcomplete "case_a" (case_function "case_a" 5 [])); [|reflexivity..].
  apply list_elem_of_here.
Defined.

(** ** What collection does to the state *)














(** ** The order of the cases of a nested case class *)

Lemma StronglySorted_keys (key : nat -> Qc) (j n : nat) :
  (forall a b, a < b -> b < j + n -> (key a < key b)%Qc) ->
  StronglySorted Qclt (key <$> seq j n).
Proof.
  revert j. induction n as [|n IH]; intros j Hkey; simpl; [constructor|].
  constructor.
  - apply IH. intros a b Hab Hb. apply Hkey; lia.
  - apply Forall_forall. intros k Hk. apply list_elem_of_fmap in Hk as [b [-> Hb]].
    apply elem_of_seq in Hb. apply Hkey; lia.
Qed.

Lemma omap_lookup_seq (g : nat -> option case_callable) (l : list case_callable) (n : nat) :
  (forall i c, l !! i = Some c -> g i = Some c) ->
  n <= length l -> omap g (seq 0 n) = take n l.
Proof.
  intros Hg. induction n as [|n IH]; intros Hn; [done|].
  rewrite seq_S, omap_app, IH by lia. simpl.
  destruct (lookup_lt_is_Some_2 l n ltac:(lia)) as [c Hc].
  rewrite (Hg n c Hc). by erewrite take_S_r.
Qed.

Lemma cases_in_order_of_keys (cases_dct : gmap Qc case_callable) (key : nat -> Qc)
    (l : list case_callable) :
  (forall a b, a < b -> b < length l -> (key a < key b)%Qc) ->
  (forall i c, l !! i = Some c -> cases_dct !! key i = Some c) ->
  (forall k, (forall i, i < length l -> k <> key i) -> cases_dct !! k = None) ->
  cases_in_order cases_dct = l.
Proof.
  intros Hmono Hin Hout.
  assert (sorted_keys cases_dct = key <$> seq 0 (length l)) as Hkeys.
  { apply (StronglySorted_unique_strong Qclt).
    - intros k1 k2 _ _ H12 H21. exfalso.
      apply (Qclt_not_eq k1 k1); [by etrans | done].
    - apply sorted_keys_sorted.
    - by apply StronglySorted_keys.
    - apply NoDup_Permutation.
      + unfold sorted_keys. rewrite merge_sort_Permutation. apply NoDup_fst_map_to_list.
      + apply NoDup_fmap_2_strong; [|apply NoDup_seq].
        intros a b Ha%elem_of_seq Hb%elem_of_seq Heq.
        destruct (Nat.lt_trichotomy a b) as [Hlt|[->|Hlt]]; [|done|].
        * apply Hmono in Hlt; [|lia]. rewrite Heq in Hlt. by apply Qclt_not_eq in Hlt.
        * apply Hmono in Hlt; [|lia]. rewrite Heq in Hlt. by apply Qclt_not_eq in Hlt.
      + intros k. rewrite sorted_keys_elem, list_elem_of_fmap. split.
        * intros [c Hc]. destruct (decide (k ∈ key <$> seq 0 (length l)))
            as [Hk|Hnone]; [by apply list_elem_of_fmap in Hk|].
          rewrite Hout in Hc; [done|]. intros i Hi ->. apply Hnone.
          apply list_elem_of_fmap. exists i. split; [done|]. apply elem_of_seq. lia.
        * intros (i & -> & Hi%elem_of_seq).
          destruct (lookup_lt_is_Some_2 l i ltac:(lia)) as [c Hc]. exists c. by apply Hin. }
  unfold cases_in_order. rewrite Hkeys.
  transitivity (omap (fun i => cases_dct !! key i) (seq 0 (length l))).
  - generalize (seq 0 (length l)). intros s. induction s as [|i s IH]; [done|].
    rewrite fmap_cons. cbn [omap list_omap]. by rewrite IH.
  - rewrite (omap_lookup_seq _ l (length l)); [apply firstn_all | done | done].
Qed.

(** X19: the scan of a container whose only member is a nested case
    class gives the cases of this class, in the order in which the class gave
    them. *)
Theorem nested_cases_keep_their_order (case_fun_prefix : string) _case_param_factory
    extract_class cls (m_name : string) (in_dict : option wrapper) (m : pyobj)
    (st st' : state) (cls_cases : list case_callable) :
  is_case_class m true = true ->
  extract_class m st = (Ok cls_cases, st') ->
  scan_members case_fun_prefix _case_param_factory extract_class cls
    [(m_name, in_dict, m)] st
  = (Ok cls_cases, st').
Proof.
  intros Hcls Hextract.
  destruct (scan_member_nested case_fun_prefix _case_param_factory extract_class cls ∅
              m_name in_dict m st st' cls_cases Hcls Hextract)
    as (cases_dct & Hscan & Hin & Hout).
  unfold scan_members. rewrite bind_M. cbn [for_each_M]. rewrite bind_M, Hscan.
  unfold mret, M_ret. do 2 f_equal.
  apply (cases_in_order_of_keys cases_dct
           (fun i => gen_line_nb (get_code_first_line m) i (length cls_cases))).
  - intros a b Hab Hb. apply gen_line_nb_lt; lia.
  - done.
  - intros k Hk. by rewrite Hout.
Qed.

Lemma nested_cases_keep_their_order_witness :
  exists cases st',
    extract_cases_from_class "case_" None true (PyClass CasesFoo CasesFoo_members)
      initial_state = (Ok cases, st')
    /\ extract_cases_from_module "case_" None no_module
         (inr {| mod_name := "pkg.test_foo_cases";
                 mod_members := [("CasesFoo", PyClass CasesFoo CasesFoo_members)] |})
         None initial_state
       = (Ok cases, st').
Proof.
  eexists _, _. split; [vm_compute; reflexivity|].
  apply (nested_cases_keep_their_order "case_" None
           (extract_cases_from_class "case_" None true) None "CasesFoo" None
           (PyClass CasesFoo CasesFoo_members) initial_state).
  - reflexivity.
  - vm_compute. reflexivity.
Defined.

(** ** Cases and the fixtures of their hosts *)

Section binding_properties.

Variable import_module : string -> option string -> outcome module.
Variable parametrize :
  list CallSpec -> list string -> list argvalue -> option ids_argument ->
  outcome (list CallSpec).

(** [case_to_argvalues] looks at the state only to see whether the host
    has the attribute, and changes it only to add this attribute. *)
Lemma case_to_argvalues_plan (case_fun : case_callable) (st : state) :
  case_to_argvalues import_module parametrize case_fun st
  = match case_binding_plan import_module parametrize case_fun with
    | Raise e => (Raise e, st)
    | Ok (NoBinding r) => (Ok r, st)
    | Ok (Binding h name new_fix r) =>
        match attributes st !! (h, name) with
        | None => (Ok r, with_attribute h name new_fix st)
        | Some _ => (Raise (NotImplementedError should_check_msg), st)
        end
    end.
Proof.
  unfold case_to_argvalues, case_binding_plan.
  unfold mbind, M_bind, outcome_bind, mret, M_ret, lift, raise, getattr, setattr.
  destruct (CaseInfo_get_from case_fun) as [case_info|]; [|done].
  destruct (MiniMetafunc_init parametrize case_fun) as [meta|]; [|done].
  destruct (negb (requires_fixtures meta)).
  { by destruct (negb (is_parametrized meta)). }
  destruct case_fun as [f|p]; [|destruct (host_class p); [|done]].
  all: destruct (import_module _ None); [|done].
  all: destruct (case_id case_info); [|done].
  all: destruct (attributes st !! _); [done|].
  all: by destruct (case_marks case_info).
Qed.


(** X21: a case whose function has no mandatory argument requires no
    fixture: [case_to_argvalues] leaves the state as it is and, when it
    returns, returns a tuple of lazy values of the case, without reference to
    a fixture; for such a case without parametrization mark, it returns the
    one lazy value of the case, with the id and the marks of the case. *)
Theorem case_without_argument (case_fun : case_callable) (st : state) :
  getfuncargnames case_fun = [] ->
  snd (case_to_argvalues import_module parametrize case_fun st) = st /\
  (forall r,
     fst (case_to_argvalues import_module parametrize case_fun st) = Ok r ->
     exists items,
       r = Tuple items
       /\ Forall (fun item => exists kwargs id marks,
                    item = lazy_value case_fun kwargs id marks) items) /\
  (forall case_info,
     get_pytest_parametrize_marks case_fun = [] ->
     CaseInfo_get_from case_fun = Some case_info ->
     fst (case_to_argvalues import_module parametrize case_fun st)
     = Ok (Tuple [lazy_value case_fun [] (case_id case_info) (case_marks case_info)])).
Proof.
  intros Hargs. rewrite case_to_argvalues_plan. unfold case_binding_plan.
  destruct (CaseInfo_get_from case_fun) as [case_info|]; [|done].
  unfold MiniMetafunc_init. rewrite Hargs.
  destruct (0 <? length (get_pytest_parametrize_marks case_fun))%nat eqn:Hparam.
  - assert (forall info : CaseInfo, get_pytest_parametrize_marks case_fun = [] ->
              forall P : Prop, P) as Hnone.
    { intros _ Hnone. by rewrite Hnone in Hparam. }
    destruct (update_callspecs parametrize _) as [[|call0 calls]|];
      [by split; [|split; [|intros info ?; apply (Hnone info)]]|
       |by split; [|split; [|intros info ?; apply (Hnone info)]]].
    cbn [mbind outcome_bind]. unfold requires_fixtures, is_parametrized. simpl.
    rewrite Hparam. simpl. split; [done|]. split.
    + intros r [= <-]. eexists. split; [done|].
      constructor; [by eexists _, _, _|].
      apply Forall_forall. intros item Hitem.
      apply list_elem_of_fmap in Hitem as (c & -> & _). by eexists _, _, _.
    + intros info ?. apply (Hnone info). done.
  - cbn [mbind outcome_bind]. unfold requires_fixtures, is_parametrized. simpl.
    rewrite Hparam. simpl. split; [done|]. split.
    + intros r [= <-]. eexists. split; [done|]. constructor; [|constructor].
      by eexists _, _, _.
    + by intros info _ [= <-].
Qed.


End binding_properties.

Lemma case_without_argument_witness :
  snd (case_to_argvalues importable no_parametrize
         (CaseFunction (case_function "case_a" 5 [])) initial_state) = initial_state.
Proof.
  apply (case_without_argument importable no_parametrize
           (CaseFunction (case_function "case_a" 5 [])) initial_state).
  reflexivity.
Defined.


(** ** The alternate name of the cases module *)

(** X23: for a test function of a top-level module, a module whose name has
    no dot, the alternate naming scheme asks for the import of a name that
    starts with a dot, [.cases_<name>], when the module is [test_<name>],
    and raises [AssertionError] without any import otherwise. *)
Theorem auto2_of_top_level_module
    (import_module : string -> option string -> outcome module) (f : function) :
  has_char "." (__module__ f) = false ->
  import_default_cases_module import_module f true
  = if String.eqb (take_string 5 (__module__ f)) "test_" then
      let cases_module_name := ".cases_" +:+ drop_string 5 (__module__ f) in
      match import_module cases_module_name None with
      | Raise (ImportError _) => Raise (ValueError (error_importing f true cases_module_name))
      | cases_module => cases_module
      end
    else Raise AssertionError.
Proof.
  intros Hdot. unfold import_default_cases_module, default_cases_module_name.
  rewrite split_no_sep by exact Hdot.
  change (List.last [__module__ f] "") with (__module__ f).
  change (removelast [__module__ f]) with (@nil string).
  change (join "." []) with "". rewrite append_nil.
  by destruct (String.eqb (take_string 5 (__module__ f)) "test_").
Qed.

Lemma auto2_of_top_level_module_witness :
  import_default_cases_module importable
    {| __name__ := "test_foo"; __module__ := "test_foo";
       __repr__ := "<function test_foo at 0x7f3a5c0d1e50>"; co_firstlineno := 7;
       _pytestcase := None; pytestmark := []; parametrize_marks := [];
       funcargnames := ["x"] |} true
  = Ok {| mod_name := ".cases_foo"; mod_members := [] |}.
Proof.
  rewrite auto2_of_top_level_module by reflexivity. reflexivity.
Defined.

(** ** Instances of the properties of the state *)



Lemma cases_in_order_lists_dictionary_witness :
  let case_a := CaseFunction (case_function "case_a" 5 []) in
  exists k, ({[ line 5 := case_a ]} : gmap Qc case_callable) !! k = Some case_a.
Proof.
  intros case_a.
  apply (proj1 (proj1 (cases_in_order_lists_dictionary {[ line 5 := case_a ]}) case_a)).
  vm_compute. apply list_elem_of_here.
Defined.
